(** * pydaas-sql: query fragments and the generic record service

    A shallow embedding of [pydaas_sql/database.py] (the [Filter],
    [Sorting] and [Pagination] builders) and of
    [pydaas_sql/services.py] (the read, update, delete and chunked bulk
    methods of [DataService]), together with a small executable model of
    the two collaborators the code talks to: the SQL expression and
    statement objects of sqlmodel, and the session that executes a
    statement and stages writes.

    Python integers are [Z]; tuples and lists are [list]; a dict and the
    attributes of an object are a [gmap] keyed by name; [None] results are
    [option]; a raised exception is a [Result]; the session is threaded
    through every call that touches it; the unbounded [while] loop of the
    chunk generator takes fuel.  The construction of instances
    ([_create_model], [create], [bulk_create]) rests on pydantic validation,
    which is a parameter of their embedding; [Database] keeps an engine and
    a session class, each the record of what it was made from. *)

From Stdlib Require Import ZArith List Bool Lia.
From stdpp Require Import gmap strings list fin_maps.

Local Open Scope Z_scope.
Local Set Warnings "-register-all".

(** ** Values, model instances and model classes *)

(** Column values.  Python [None] is SQL NULL. *)
Inductive Value :=
| VNone
| VInt (n : Z)
| VStr (s : string).

#[global] Instance Value_eq_dec : EqDecision Value.
Proof. solve_decision. Defined.

(** A model instance: a Python object (its identity [oid], which is what the
    session's identity map tracks) carrying one attribute per field. *)
Record ModelInstance := mkInstance {
  oid : nat;
  attrs : gmap string Value
}.

(** What the service reads off [self.Model]: the declared field names
    ([Model.__fields__]) and the primary-key column names
    ([Model.__table__.primary_key.columns]), both in declaration order. *)
Record ModelClass := mkModel {
  __fields__ : list string;
  primary_key : list string
}.

(** ** SQL expressions (the part of sqlmodel the builders compose) *)

Inductive CmpOp := OpEq | OpNe | OpLt | OpLe | OpGt | OpGe.

Inductive Expr :=
| Cmp (op : CmpOp) (col : string) (v : Value)
| IsNull (col : string)
| Not_ (e : Expr)
| And_ (es : list Expr)
| Or_ (es : list Expr).

(** [sm.and_] and [sm.or_], variadic in Python, build a boolean clause list. *)
Definition sm_and_ (es : list Expr) : Expr := And_ es.
Definition sm_or_ (es : list Expr) : Expr := Or_ es.

(** [column == value]: comparing with [None] renders [IS NULL]. *)
Definition col_eq (col : string) (v : Value) : Expr :=
  match v with
  | VNone => IsNull col
  | _ => Cmp OpEq col v
  end.

(** Ordering of two non-NULL values (integers sort before text). *)
Definition compare_values (a b : Value) : option comparison :=
  match a, b with
  | VInt x, VInt y => Some (x ?= y)
  | VStr x, VStr y => Some (String.compare x y)
  | VInt _, VStr _ => Some Lt
  | VStr _, VInt _ => Some Gt
  | _, _ => None
  end.

Definition cmp_holds (op : CmpOp) (c : comparison) : bool :=
  match op, c with
  | OpEq, Eq | OpNe, Lt | OpNe, Gt => true
  | OpLt, Lt | OpLe, Lt | OpLe, Eq => true
  | OpGt, Gt | OpGe, Gt | OpGe, Eq => true
  | _, _ => false
  end.

(** Three-valued logic: [None] is SQL's UNKNOWN. *)
Definition and3 (a b : option bool) : option bool :=
  match a, b with
  | Some false, _ | _, Some false => Some false
  | Some true, Some true => Some true
  | _, _ => None
  end.

Definition or3 (a b : option bool) : option bool :=
  match a, b with
  | Some true, _ | _, Some true => Some true
  | Some false, Some false => Some false
  | _, _ => None
  end.

Definition column (r : ModelInstance) (col : string) : Value :=
  default VNone (attrs r !! col).

Fixpoint eval (e : Expr) (r : ModelInstance) : option bool :=
  match e with
  | Cmp op col v => cmp_holds op <$> compare_values (column r col) v
  | IsNull col => Some (bool_decide (column r col = VNone))
  | Not_ e' => negb <$> eval e' r
  | And_ es => fold_right (fun e' acc => and3 (eval e' r) acc) (Some true) es
  | Or_ es => fold_right (fun e' acc => or3 (eval e' r) acc) (Some false) es
  end.

(** A WHERE clause keeps the rows on which the condition is TRUE. *)
Definition holds (e : Expr) (r : ModelInstance) : bool :=
  match eval e r with
  | Some true => true
  | _ => false
  end.

Definition holds_all (es : list Expr) (r : ModelInstance) : bool :=
  forallb (fun e => holds e r) es.

(** ** Statements *)

Inductive OrderExpr :=
| OAsc (col : string)
| ODesc (col : string).

(** [sm.desc(e)]. *)
Definition sm_desc (e : OrderExpr) : OrderExpr :=
  match e with
  | OAsc c => ODesc c
  | ODesc c => ODesc c
  end.

Record Select := mkSelect {
  whereclause : list Expr;
  order_by_clause : list OrderExpr;
  offset_clause : option Z;
  limit_clause : option Z
}.

(** [select(Model)] *)
Definition select : Select := mkSelect [] [] None None.

(** [stm.where], variadic: criteria accumulate and are ANDed. *)
Definition where_ (stm : Select) (es : list Expr) : Select :=
  mkSelect (whereclause stm ++ es) (order_by_clause stm)
           (offset_clause stm) (limit_clause stm).

Definition order_by (stm : Select) (ks : list OrderExpr) : Select :=
  mkSelect (whereclause stm) (order_by_clause stm ++ ks)
           (offset_clause stm) (limit_clause stm).

Definition offset (stm : Select) (n : Z) : Select :=
  mkSelect (whereclause stm) (order_by_clause stm) (Some n) (limit_clause stm).

Definition limit (stm : Select) (n : Z) : Select :=
  mkSelect (whereclause stm) (order_by_clause stm) (offset_clause stm) (Some n).

(** *** Executing a statement on a table *)

(** NULL sorts first, then integers, then text. *)
Definition value_leb (a b : Value) : bool :=
  match a, b with
  | VNone, _ => true
  | _, VNone => false
  | _, _ => match compare_values a b with
            | Some Gt => false
            | _ => true
            end
  end.

Fixpoint row_leb (ks : list OrderExpr) (r1 r2 : ModelInstance) : bool :=
  match ks with
  | [] => true
  | k :: ks' =>
      let '(a, b) := match k with
                     | OAsc c => (column r1 c, column r2 c)
                     | ODesc c => (column r2 c, column r1 c)
                     end in
      if bool_decide (a = b) then row_leb ks' r1 r2 else value_leb a b
  end.

Fixpoint insert_sorted (ks : list OrderExpr) (r : ModelInstance)
    (l : list ModelInstance) : list ModelInstance :=
  match l with
  | [] => [r]
  | x :: l' => if row_leb ks r x then r :: l else x :: insert_sorted ks r l'
  end.

(** Stable sort; with no ORDER BY the table order is kept. *)
Definition sort_rows (ks : list OrderExpr) (l : list ModelInstance)
    : list ModelInstance :=
  match ks with
  | [] => l
  | _ => fold_right (insert_sorted ks) [] l
  end.

Definition window (stm : Select) (l : list ModelInstance) : list ModelInstance :=
  let l1 := match offset_clause stm with
            | Some n => drop (Z.to_nat n) l
            | None => l
            end in
  match limit_clause stm with
  | Some n => take (Z.to_nat n) l1
  | None => l1
  end.

Definition selected (stm : Select) (rows : list ModelInstance)
    : list ModelInstance :=
  List.filter (holds_all (whereclause stm)) rows.

Definition run_select (stm : Select) (rows : list ModelInstance)
    : list ModelInstance :=
  window stm (sort_rows (order_by_clause stm) (selected stm rows)).

(** ** Exceptions *)

Inductive Exc :=
| IndexError
| MultipleResultsFound.

Inductive Result (A : Type) :=
| Ok (a : A)
| Raise (e : Exc).
Arguments Ok {A} a.
Arguments Raise {A} e.

(** Python sequence indexing [t[i]]: negative indices count from the end,
    anything out of range raises [IndexError]. *)
Definition py_index {A} (t : list A) (i : Z) : Result A :=
  let n := Z.of_nat (length t) in
  let j := if i <? 0 then i + n else i in
  if (j <? 0) || (n <=? j) then Raise IndexError
  else match t !! Z.to_nat j with
       | Some x => Ok x
       | None => Raise IndexError
       end.

(** Python truthiness of a tuple or list. *)
Definition truthy {A} (t : list A) : bool :=
  match t with
  | [] => false
  | _ => true
  end.

(** ** database.py: Filter *)

Record Filter := mkFilter { Filter_expressions : list Expr }.

Definition Filter_and_ (self : Filter) (expressions : list Expr) : Filter :=
  mkFilter (Filter_expressions self ++ expressions).

Definition Filter_or_ (self : Filter) (expressions : list Expr) : Filter :=
  let ors := [] in
  let ors := if truthy (Filter_expressions self)
             then ors ++ [sm_and_ (Filter_expressions self)] else ors in
  let ors := if truthy expressions
             then ors ++ [sm_and_ expressions] else ors in
  if truthy ors then mkFilter [sm_or_ ors] else mkFilter [].

Definition Filter_apply (self : Filter) (stm : Select) : Select :=
  where_ stm (Filter_expressions self).

Definition Filter_getitem (self : Filter) (index : Z) : Result Expr :=
  py_index (Filter_expressions self) index.

(** ** database.py: Sorting *)

Record Sorting := mkSorting { Sorting_expressions : list OrderExpr }.

Definition Sorting_asc_ (self : Sorting) (expressions : list OrderExpr) : Sorting :=
  mkSorting (Sorting_expressions self ++ expressions).

Definition Sorting_desc_ (self : Sorting) (expressions : list OrderExpr) : Sorting :=
  mkSorting (Sorting_expressions self ++ map sm_desc expressions).

Definition Sorting_apply (self : Sorting) (stm : Select) : Select :=
  order_by stm (Sorting_expressions self).

(** ** database.py: Pagination *)

Record Pagination := mkPagination {
  _page : Z;
  _page_size : Z;
  _fetch_one_more : bool
}.

(** [Pagination.__init__] *)
Definition Pagination_init (page page_size : Z) (fetch_one_more : bool)
    : Pagination :=
  mkPagination (Z.max page 1) (Z.max page_size 1) fetch_one_more.

Definition Pagination_page_ (self : Pagination) (page : Z) : Pagination :=
  Pagination_init page (_page_size self) (_fetch_one_more self).

Definition Pagination_page_size_ (self : Pagination) (page_size : Z) : Pagination :=
  Pagination_init (_page self) page_size (_fetch_one_more self).

Definition Pagination_fetch_one_more_ (self : Pagination) (fetch_one_more : bool)
    : Pagination :=
  Pagination_init (_page self) (_page_size self) fetch_one_more.

Definition Pagination_apply (self : Pagination) (stm : Select) : Select :=
  let offset_ := (_page self - 1) * _page_size self in
  let limit_ := if _fetch_one_more self then _page_size self + 1
                else _page_size self in
  limit (offset stm offset_) limit_.

(** ** The session

    One table (the service is bound to one model).  [rows] is the table as
    the open transaction sees it; [add] and [delete] only stage work, which
    a flush writes to the table.  A session configured with [autoflush]
    (the default of [sessionmaker], which [Database.Session] does not
    override) flushes before executing a statement; [commit] always
    flushes. *)

Record Session := mkSession {
  rows : list ModelInstance;
  new : list ModelInstance;
  deleted : list ModelInstance;
  commits : nat;
  autoflush : bool
}.

Definition same_object (a b : ModelInstance) : bool :=
  Nat.eqb (oid a) (oid b).

(** INSERT a new object, or UPDATE the row of an object already stored. *)
Definition upsert (tbl : list ModelInstance) (r : ModelInstance)
    : list ModelInstance :=
  if existsb (same_object r) tbl
  then map (fun x => if same_object r x then r else x) tbl
  else tbl ++ [r].

Definition remove_object (tbl : list ModelInstance) (r : ModelInstance)
    : list ModelInstance :=
  List.filter (fun x => negb (same_object r x)) tbl.

Definition flush (s : Session) : Session :=
  mkSession (fold_left remove_object (deleted s) (fold_left upsert (new s) (rows s)))
            [] [] (commits s) (autoflush s).

Definition session_add (instance : ModelInstance) (s : Session) : Session :=
  mkSession (rows s) (new s ++ [instance]) (deleted s) (commits s) (autoflush s).

Definition session_add_all (instances : list ModelInstance) (s : Session)
    : Session :=
  fold_left (fun s' i => session_add i s') instances s.

Definition session_delete (instance : ModelInstance) (s : Session) : Session :=
  mkSession (rows s) (new s) (deleted s ++ [instance]) (commits s) (autoflush s).

Definition session_commit (s : Session) : Session :=
  let s' := flush s in
  mkSession (rows s') (new s') (deleted s') (S (commits s')) (autoflush s').

(** [await db.exec(stm)] followed by [res.all()]. *)
Definition session_exec (stm : Select) (s : Session)
    : list ModelInstance * Session :=
  let s' := if autoflush s then flush s else s in
  (run_select stm (rows s'), s').

(** [res.one_or_none()] *)
Definition one_or_none (res : list ModelInstance) : Result (option ModelInstance) :=
  match res with
  | [] => Ok None
  | [r] => Ok (Some r)
  | _ => Raise MultipleResultsFound
  end.

(** ** Patches: what [update] receives as [data] *)

(** A pydantic object: its field values, the defaults its class declares
    (a required field has none) and the set of fields given explicitly at
    construction ([model_fields_set]). *)
Record SQLModel := mkSQLModel {
  field_values : gmap string Value;
  field_defaults : gmap string Value;
  model_fields_set : gset string
}.

Definition model_dump (m : SQLModel) (exclude_unset exclude_defaults : bool)
    : gmap string Value :=
  filter (fun kv : string * Value =>
            (exclude_unset = true -> kv.1 ∈ model_fields_set m) /\
            (exclude_defaults = true -> field_defaults m !! kv.1 ≠ Some kv.2))
         (field_values m).

Inductive Data :=
| DDict (d : gmap string Value)
| DModel (m : SQLModel).

Definition setattr (instance : ModelInstance) (field : string) (value : Value)
    : ModelInstance :=
  mkInstance (oid instance) (<[field := value]> (attrs instance)).

(** Primary-key argument of the [*_by_id] methods: a scalar, or a tuple/list. *)
Inductive PyId :=
| IdScalar (v : Value)
| IdSeq (vs : list Value).

(** ** services.py: DataService

    [self.db] is threaded explicitly: a method that touches the session is a
    function of the session before the call and returns the session after
    it.  Methods that can raise live in the monad [M]. *)

Record DataService := mkDataService { Model : ModelClass }.

Definition M (A : Type) : Type := Session -> Result A * Session.

#[global] Instance M_ret : MRet M := fun A a s => (Ok a, s).

#[global] Instance M_bind : MBind M := fun A B f m s =>
  match m s with
  | (Ok a, s') => f a s'
  | (Raise e, s') => (Raise e, s')
  end.

(** A call that cannot raise. *)
Definition lift {A} (f : Session -> A * Session) : M A :=
  fun s => let '(a, s') := f s in (Ok a, s').

Definition raise_or {A} (r : Result A) : M A := fun s => (r, s).

Definition DataService__update_model (self : DataService)
    (instance : ModelInstance) (values : Data) : ModelInstance :=
  let values := match values with
                | DDict d => d
                | DModel m => model_dump m true true
                end in
  fold_left
    (fun instance field =>
       match values !! field with
       | Some value => setattr instance field value
       | None => instance
       end)
    (__fields__ (Model self)) instance.

Definition DataService_search (self : DataService)
    (filter : option Filter) (sorting : option Sorting)
    (pagination : option Pagination) (s : Session)
    : list ModelInstance * Session :=
  let stm := select in
  let stm := match filter with
             | Some f => Filter_apply f stm
             | None => stm
             end in
  let stm := match sorting with
             | Some o => Sorting_apply o stm
             | None => stm
             end in
  let stm := match pagination with
             | Some p => Pagination_apply p stm
             | None => stm
             end in
  session_exec stm s.

Definition DataService_get (self : DataService) (filter : Filter)
    : M (option ModelInstance) :=
  let stm := select in
  let stm := Filter_apply filter stm in
  res ← lift (session_exec stm);
  raise_or (one_or_none res).

Definition DataService_update (self : DataService)
    (instance : ModelInstance) (data : Data) (s : Session)
    : ModelInstance * Session :=
  let instance := DataService__update_model self instance data in
  let s := session_add instance s in
  let s := session_commit s in
  (instance, s).

Definition DataService_delete (self : DataService)
    (instance : ModelInstance) (s : Session) : unit * Session :=
  (tt, session_delete instance s).

(** The loop of [get_by_id]: [i] runs over [enumerate] of the key columns. *)
Fixpoint key_filter (cols : list string) (i : nat) (id : list Value)
    (filter : Filter) : Result Filter :=
  match cols with
  | [] => Ok filter
  | col :: cols' =>
      match py_index id (Z.of_nat i) with
      | Ok v => key_filter cols' (S i) id (Filter_and_ filter [col_eq col v])
      | Raise e => Raise e
      end
  end.

Definition DataService_get_by_id (self : DataService) (id : PyId)
    : M (option ModelInstance) :=
  let id := match id with
            | IdScalar v => [v]
            | IdSeq vs => vs
            end in
  filter ← raise_or (key_filter (primary_key (Model self)) 0 id (mkFilter []));
  DataService_get self filter.

Definition DataService_update_by_id (self : DataService) (id : PyId)
    (data : Data) : M (option ModelInstance) :=
  instance ← DataService_get_by_id self id;
  match instance with
  | None => mret None
  | Some instance =>
      updated ← lift (DataService_update self instance data);
      mret (Some updated)
  end.

Definition DataService_delete_by_id (self : DataService) (id : PyId) : M bool :=
  instance ← DataService_get_by_id self id;
  match instance with
  | None => mret false
  | Some instance =>
      _ ← lift (DataService_delete self instance);
      mret true
  end.

(** *** The chunked iterator and its consumers

    [async for chunk in self._get_model_chunks(filter, chunk_size): body]
    runs the generator and the loop body in alternation on the same
    session.  [for_chunks] is that loop: [body] receives each yielded chunk,
    the consumer's accumulator and the session.  The [while] loop has no
    bound, so the model is fuelled: [None] means the fuel ran out. *)

(** Python [chunk[:-1]] *)
Definition but_last {A} (chunk : list A) : list A :=
  take (length chunk - 1)%nat chunk.

Fixpoint for_chunks {A} (fuel : nat) (self : DataService)
    (filter : option Filter) (chunk_size : Z)
    (body : list ModelInstance -> A -> Session -> A * Session)
    (page : Z) (acc : A) (s : Session) : option (A * Session) :=
  match fuel with
  | O => None
  | S fuel' =>
      let '(chunk, s) :=
        DataService_search self filter None
          (Some (Pagination_init page chunk_size true)) s in
      let has_next := Z.of_nat (length chunk) =? chunk_size + 1 in
      let '(acc, s) := body (if has_next then but_last chunk else chunk) acc s in
      let page := page + 1 in
      if has_next then for_chunks fuel' self filter chunk_size body page acc s
      else Some (acc, s)
  end.

(** The generator on its own: the chunks it yields to a consumer that only
    collects them. *)
Definition DataService__get_model_chunks (fuel : nat) (self : DataService)
    (filter : option Filter) (chunk_size : Z) (s : Session)
    : option (list (list ModelInstance) * Session) :=
  for_chunks fuel self filter chunk_size
    (fun chunk chunks s => (chunks ++ [chunk], s)) 1 [] s.

Definition DataService_bulk_update (fuel : nat) (self : DataService)
    (filter : Filter) (data : Data) (chunk_size : Z) (s : Session)
    : option (Z * Session) :=
  for_chunks fuel self (Some filter) chunk_size
    (fun chunk count s =>
       let chunk := map (fun i => DataService__update_model self i data) chunk in
       let s := session_add_all chunk s in
       let s := session_commit s in
       (count + Z.of_nat (length chunk), s))
    1 0 s.

(** [asyncio.gather] runs the deletions of one chunk; each only stages its
    object, so their interleaving does not matter. *)
Definition DataService_bulk_delete (fuel : nat) (self : DataService)
    (filter : Filter) (chunk_size : Z) (s : Session) : option (Z * Session) :=
  for_chunks fuel self (Some filter) chunk_size
    (fun chunk count s =>
       let s := fold_left (fun s i => snd (DataService_delete self i s)) chunk s in
       (count + Z.of_nat (length chunk), s))
    1 0 s.

(** ** Filter objects in the interpreter's store

    Python passes Filter objects by reference.  Every method of the class
    that returns a Filter does so through the constructor, which allocates a
    fresh object; only [__init__] assigns [_expressions], and a tuple is
    immutable.  The store maps a reference to the object's state. *)

Definition new_Filter (st : gmap positive Filter) (expressions : list Expr)
    : positive * gmap positive Filter :=
  let ref := fresh (dom st) in
  (ref, <[ref := mkFilter expressions]> st).

Inductive Call :=
| Call_and_ (self : positive) (expressions : list Expr)
| Call_or_ (self : positive) (expressions : list Expr).

(** One combinator call on a reference; [None] when the receiver is not an
    object of the store. *)
Definition call (st : gmap positive Filter) (c : Call)
    : option (positive * gmap positive Filter) :=
  match c with
  | Call_and_ self expressions =>
      match st !! self with
      | Some f => Some (new_Filter st (Filter_expressions (Filter_and_ f expressions)))
      | None => None
      end
  | Call_or_ self expressions =>
      match st !! self with
      | Some f => Some (new_Filter st (Filter_expressions (Filter_or_ f expressions)))
      | None => None
      end
  end.

Fixpoint calls (cs : list Call) (st : gmap positive Filter)
    : option (list positive * gmap positive Filter) :=
  match cs with
  | [] => Some ([], st)
  | c :: cs' =>
      match call st c with
      | Some (ref, st') =>
          match calls cs' st' with
          | Some (refs, st'') => Some (ref :: refs, st'')
          | None => None
          end
      | None => None
      end
  end.

(** ** Vocabulary of the statements *)

(** A record matches a filter when all of its predicates are TRUE on it. *)
Definition Filter_matches (f : Filter) (r : ModelInstance) : bool :=
  holds_all (Filter_expressions f) r.

(** The session a statement leaves behind, and the table it reads. *)
Definition observed (s : Session) : Session :=
  if autoflush s then flush s else s.

Definition visible (s : Session) : list ModelInstance :=
  rows (observed s).

(** The records matching an optional filter, in table order. *)
Definition matching (filter : option Filter) (s : Session) : list ModelInstance :=
  match filter with
  | Some f => List.filter (Filter_matches f) (visible s)
  | None => visible s
  end.

Definition id_components (id : PyId) : list Value :=
  match id with
  | IdScalar v => [v]
  | IdSeq vs => vs
  end.

(** The value a patch explicitly supplies for a field: a key of the mapping,
    or a field the object was constructed with. *)
Definition explicit_value (data : Data) (field : string) : option Value :=
  match data with
  | DDict d => d !! field
  | DModel m =>
      if decide (field ∈ model_fields_set m) then field_values m !! field
      else None
  end.

(** The value [update] takes from a patch: as [explicit_value], except that
    an object's field equal to its declared default is passed over. *)
Definition patch_value (data : Data) (field : string) : option Value :=
  match explicit_value data field with
  | Some v =>
      match data with
      | DDict _ => Some v
      | DModel m =>
          if decide (field_defaults m !! field = Some v) then None else Some v
      end
  | None => None
  end.

(** The predicates [get_by_id] builds: one equality per key column, paired
    with the component of [id] at the same position. *)
Definition key_predicates (self : DataService) (id : PyId) : list Expr :=
  zip_with col_eq (primary_key (Model self)) (id_components id).

Definition has_key (self : DataService) (id : PyId) (r : ModelInstance) : bool :=
  holds_all (key_predicates self id) r.

(** Reading a Filter object through a reference. *)
Definition deref_getitem (st : gmap positive Filter) (ref : positive) (index : Z)
    : option (Result Expr) :=
  (fun f => Filter_getitem f index) <$> st !! ref.

Definition deref_apply (st : gmap positive Filter) (ref : positive) (stm : Select)
    : option Select :=
  (fun f => Filter_apply f stm) <$> st !! ref.

(** The reading of [update] under which every explicitly supplied value of
    a declared field is written, a default included. *)
Definition writes_every_explicit_value (self : DataService)
    (instance : ModelInstance) (data : Data) (s : Session) : Prop :=
  forall field,
    attrs (DataService_update self instance data s).1 !! field
    = match (if decide (field ∈ __fields__ (Model self))
             then explicit_value data field else None) with
      | Some v => Some v
      | None => attrs instance !! field
      end.

(** The reading of the by-id methods under which an id that is the key of
    no stored record, whatever its shape, gets the not-found answer. *)
Definition not_found_is_answered (self : DataService) (id : PyId) (data : Data)
    (s : Session) : Prop :=
  List.filter (has_key self id) (visible s) = [] ->
  (DataService_update_by_id self id data s).1 = Ok None /\
  (DataService_delete_by_id self id s).1 = Ok false.

(** The rows of page [page] of the chunk scan: what [search] returns for
    [Pagination(page, chunk_size, fetch_one_more=True)]. *)
Definition page_rows (filter : option Filter) (page chunk_size : Z) (s : Session)
    : list ModelInstance :=
  take (Z.to_nat (Z.max chunk_size 1 + 1))
       (drop (Z.to_nat ((Z.max page 1 - 1) * Z.max chunk_size 1))
             (matching filter s)).

(** ** A concrete model: [Item(id, name, price)] *)

Definition Item : ModelClass := mkModel ["id"; "name"; "price"]%string ["id"%string].

Definition items : DataService := mkDataService Item.

Definition item (o : nat) (id : Z) (name : string) (price : Z) : ModelInstance :=
  mkInstance o (<["id"%string := VInt id]>
               (<["name"%string := VStr name]>
               (<["price"%string := VInt price]> ∅))).

Definition item_a : ModelInstance := item 1 1 "a" 1.
Definition item_b : ModelInstance := item 2 2 "b" 2.
Definition item_c : ModelInstance := item 3 3 "c" 3.
Definition item_d : ModelInstance := item 4 4 "d" 4.

(** A session on a table holding exactly [a] and [b], nothing staged. *)
Definition two_items (autoflush : bool) : Session :=
  mkSession [item_a; item_b] [] [] 0 autoflush.

Definition price_gt (n : Z) : Expr := Cmp OpGt "price" (VInt n).

Definition three_items : Session :=
  mkSession [item_a; item_b; item_c] [] [] 0 true.

Definition four_items : Session :=
  mkSession [item_a; item_b; item_c; item_d] [] [] 0 true.

Definition no_items : Session := mkSession [] [] [] 0 true.

(** [ItemUpdate(price=0)] for a patch class declaring
    [name: str | None = None] and [price: int = 0]. *)
Definition price_reset : SQLModel :=
  mkSQLModel (<["name"%string := VNone]> (<["price"%string := VInt 0]> ∅))
             (<["name"%string := VNone]> (<["price"%string := VInt 0]> ∅))
             {["price"%string]}.

(** ** database.py: Sorting, indexing *)

Definition Sorting_getitem (self : Sorting) (index : Z) : Result OrderExpr :=
  py_index (Sorting_expressions self) index.

(** ** database.py: Database

    The engine and the session class are the objects that
    [create_async_engine] and [sessionmaker] return; all the class does with
    them is store and hand them out, so each is the record of the arguments
    it was made from. *)

Record AsyncEngine := mkEngine {
  engine_url : string;
  engine_echo : bool
}.

Definition create_async_engine (db_url : string) (echo : bool) : AsyncEngine :=
  mkEngine db_url echo.

Record SessionClass := mkSessionClass {
  session_bind : AsyncEngine;
  expire_on_commit : bool
}.

(** [sessionmaker(engine, class_=AsyncSession, expire_on_commit=...)] *)
Definition sessionmaker (engine : AsyncEngine) (expire_on_commit : bool)
    : SessionClass :=
  mkSessionClass engine expire_on_commit.

Record Database := mkDatabase {
  _engine : option AsyncEngine;
  _session_cls : option SessionClass
}.

(** [Database.__init__] *)
Definition Database_new : Database := mkDatabase None None.

Definition Database_init (self : Database) (db_url : string) (echo : bool)
    : Database :=
  mkDatabase (Some (create_async_engine db_url echo)) (_session_cls self).

(** A property either returns or raises [Exception(message)]. *)
Inductive Attempt (A : Type) :=
| Returned (a : A)
| Exception (message : string).
Arguments Returned {A} a.
Arguments Exception {A} message.

Definition Database_engine (self : Database) : Attempt AsyncEngine :=
  match _engine self with
  | None => Exception "Database uninitialized. Call db.init(...) method"
  | Some engine => Returned engine
  end.

(** The [Session] property: the class is made on first use and kept. *)
Definition Database_Session (self : Database) : Attempt SessionClass * Database :=
  match _session_cls self with
  | None =>
      match Database_engine self with
      | Returned engine =>
          let cls := sessionmaker engine false in
          (Returned cls, mkDatabase (_engine self) (Some cls))
      | Exception message => (Exception message, self)
      end
  | Some cls => (Returned cls, self)
  end.

(** Uses of a [Database] object, for statements about any sequence of them. *)
Inductive DatabaseUse :=
| UseInit (db_url : string) (echo : bool)
| UseSession.

Definition use_database (self : Database) (u : DatabaseUse) : Database :=
  match u with
  | UseInit db_url echo => Database_init self db_url echo
  | UseSession => (Database_Session self).2
  end.

(** ** services.py: building and storing new instances

    [Model.model_validate] and the constructor [Model] belong to pydantic;
    they are parameters here.  Each turns a mapping into a new instance or
    raises a validation error ([None]). *)

Inductive CreateExc :=
| ValidationError
| ZeroDivisionError.

Inductive Outcome (A : Type) :=
| Done (a : A)
| Failed (e : CreateExc).
Arguments Done {A} a.
Arguments Failed {A} e.

(** Python [a % b] on integers: the sign of the divisor, and an exception
    for a zero divisor. *)
Definition py_mod (a b : Z) : option Z :=
  if b =? 0 then None else Some (a mod b).

Section Create.

Variable model_validate : gmap string Value -> option ModelInstance.
Variable model_init : gmap string Value -> option ModelInstance.

Definition DataService__create_model (self : DataService) (data : Data)
    : option ModelInstance :=
  match data with
  | DDict d => model_validate d
  | DModel m => model_init (model_dump m true false)
  end.

Definition DataService_create (self : DataService) (data : Data) (s : Session)
    : Outcome ModelInstance * Session :=
  match DataService__create_model self data with
  | None => (Failed ValidationError, s)
  | Some instance =>
      let s := session_add instance s in
      let s := session_commit s in
      (Done instance, s)
  end.

(** The [for] loop of [bulk_create], from the current [count]. *)
Fixpoint bulk_create_loop (self : DataService) (values : list Data)
    (chunk_size : Z) (count : Z) (s : Session) : Outcome Z * Session :=
  match values with
  | [] => (Done count, s)
  | data :: values' =>
      match DataService__create_model self data with
      | None => (Failed ValidationError, s)
      | Some instance =>
          let s := session_add instance s in
          let count := count + 1 in
          match py_mod count chunk_size with
          | None => (Failed ZeroDivisionError, s)
          | Some m =>
              let s := if m =? 0 then session_commit s else s in
              bulk_create_loop self values' chunk_size count s
          end
      end
  end.

Definition DataService_bulk_create (self : DataService) (values : list Data)
    (chunk_size : Z) (s : Session) : Outcome Z * Session :=
  match bulk_create_loop self values chunk_size 0 s with
  | (Done count, s) =>
      match py_mod count chunk_size with
      | None => (Failed ZeroDivisionError, s)
      | Some m =>
          let s := if negb (m =? 0) then session_commit s else s in
          (Done count, s)
      end
  | (Failed e, s) => (Failed e, s)
  end.

End Create.

(** Uses of a [Pagination] object's copying methods. *)
Inductive PaginationUse :=
| UsePage (page : Z)
| UsePageSize (page_size : Z)
| UseFetchOneMore (fetch_one_more : bool).

Definition use_pagination (self : Pagination) (u : PaginationUse) : Pagination :=
  match u with
  | UsePage page => Pagination_page_ self page
  | UsePageSize page_size => Pagination_page_size_ self page_size
  | UseFetchOneMore fetch_one_more => Pagination_fetch_one_more_ self fetch_one_more
  end.

(** The statement [search] builds from its three optional arguments. *)
Definition search_statement (filter : option Filter) (sorting : option Sorting)
    (pagination : option Pagination) : Select :=
  let stm := select in
  let stm := match filter with
             | Some f => Filter_apply f stm
             | None => stm
             end in
  let stm := match sorting with
             | Some o => Sorting_apply o stm
             | None => stm
             end in
  match pagination with
  | Some p => Pagination_apply p stm
  | None => stm
  end.

(** The order keys [search] passes on. *)
Definition sorting_keys (sorting : option Sorting) : list OrderExpr :=
  match sorting with
  | Some o => Sorting_expressions o
  | None => []
  end.

(** Validators for the [Item] model: every mapping is accepted and becomes
    object number 9; or only mappings that give a price are. *)
Definition accept_all (d : gmap string Value) : option ModelInstance :=
  Some (mkInstance 9 d).

Definition need_price (d : gmap string Value) : option ModelInstance :=
  match d !! "price"%string with
  | Some _ => Some (mkInstance 9 d)
  | None => None
  end.

(** A table after [bulk_update] has patched the objects in [done]. *)
Definition patch_rows (self : DataService) (data : Data)
    (done tbl : list ModelInstance) : list ModelInstance :=
  map (fun x => if existsb (same_object x) done
                then DataService__update_model self x data else x) tbl.

(** Cutting a list into chunks of [n]: the first, third, fifth, ... chunk,
    up to and including the first chunk that is not followed by more than
    [n] further elements; and the chunks in between.  [fuel] above the
    length of the list is enough. *)
Fixpoint odd_chunks {A} (fuel n : nat) (l : list A) : list A :=
  match fuel with
  | O => []
  | S fuel' =>
      if (length l <=? n)%nat then l
      else take n l ++ odd_chunks fuel' n (drop (n + n) l)
  end.

Fixpoint even_chunks {A} (fuel n : nat) (l : list A) : list A :=
  match fuel with
  | O => []
  | S fuel' =>
      if (length l <=? n)%nat then []
      else take n (drop n l) ++ even_chunks fuel' n (drop (n + n) l)
  end.

(** A table on which two rows carry the same key. *)
Definition item_a_again : ModelInstance := item 5 1 "twin" 7.

Definition twin_items : Session :=
  mkSession [item_a; item_a_again] [] [] 0 true.

Definition new_price (n : Z) : Data := DDict (<["price"%string := VInt n]> ∅).

(** * Properties *)

(** ** The model on the scenario of the specification *)

Example search_price_gt_1 :
  (DataService_search items (Some (mkFilter [price_gt 1])) None None
     (two_items true)).1 = [item_b].
Proof. reflexivity. Qed.

Example search_price_desc :
  (DataService_search items None
     (Some (Sorting_desc_ (mkSorting []) [OAsc "price"])) None
     (two_items true)).1 = [item_b; item_a].
Proof. reflexivity. Qed.

Example search_second_page :
  (DataService_search items None None (Some (Pagination_init 2 1 true))
     three_items).1 = [item_b; item_c].
Proof. reflexivity. Qed.

Example chunks_of_three_by_two :
  DataService__get_model_chunks 2 items None 2 three_items
  = Some ([[item_a; item_b]; [item_c]], three_items).
Proof. reflexivity. Qed.

Example delete_by_id_found :
  DataService_delete_by_id items (IdScalar (VInt 2)) (two_items true)
  = (Ok true, mkSession [item_a; item_b] [] [item_b] 0 true).
Proof. reflexivity. Qed.

Example get_by_id_short_tuple :
  (DataService_get_by_id items (IdSeq []) (two_items true)).1 = Raise IndexError.
Proof. reflexivity. Qed.

Example getitem_last :
  Filter_getitem (mkFilter [price_gt 1; price_gt 2]) (-1) = Ok (price_gt 2).
Proof. reflexivity. Qed.

Example or_shape :
  Filter_or_ (mkFilter [price_gt 1]) [price_gt 2]
  = mkFilter [Or_ [And_ [price_gt 1]; And_ [price_gt 2]]].
Proof. reflexivity. Qed.

(** ** Expressions *)

Lemma holds_sm_and_ es r : holds (sm_and_ es) r = holds_all es r.
Proof.
  unfold holds, holds_all, sm_and_; simpl.
  induction es as [|e es IH]; simpl; [reflexivity|].
  unfold holds at 1.
  destruct (eval e r) as [[|]|];
    destruct (fold_right _ _ es) as [[|]|]; simpl in *; congruence.
Qed.

Lemma holds_sm_or_ es r :
  holds (sm_or_ es) r = existsb (fun e => holds e r) es.
Proof.
  unfold holds, sm_or_; simpl.
  induction es as [|e es IH]; simpl; [reflexivity|].
  destruct (eval e r) as [[|]|];
    destruct (fold_right _ _ es) as [[|]|]; simpl in *; congruence.
Qed.

Lemma holds_all_app es1 es2 r :
  holds_all (es1 ++ es2) r = holds_all es1 r && holds_all es2 r.
Proof. unfold holds_all. apply forallb_app. Qed.

Lemma filter_all {A} (f : A -> bool) (l : list A) :
  (forall x, f x = true) -> List.filter f l = l.
Proof.
  intros Hf. induction l as [|x l IH]; simpl; [reflexivity|].
  rewrite Hf, IH. reflexivity.
Qed.

(** ** The session *)

Lemma flush_flush s : flush (flush s) = flush s.
Proof. reflexivity. Qed.

Lemma observed_observed s : observed (observed s) = observed s.
Proof. unfold observed. destruct s as [r n d c []]; reflexivity. Qed.

Lemma visible_observed s : visible (observed s) = visible s.
Proof. unfold visible. rewrite observed_observed. reflexivity. Qed.

Lemma matching_observed filter s :
  matching filter (observed s) = matching filter s.
Proof. unfold matching. rewrite visible_observed. reflexivity. Qed.

Lemma commits_observed s : commits (observed s) = commits s.
Proof. unfold observed. destruct (autoflush s); reflexivity. Qed.

Lemma page_rows_observed filter page cs s :
  page_rows filter page cs (observed s) = page_rows filter page cs s.
Proof. unfold page_rows. rewrite matching_observed. reflexivity. Qed.

(** ** What the statements of the service read *)

Lemma selected_where (f : Filter) rows :
  selected (Filter_apply f select) rows = List.filter (Filter_matches f) rows.
Proof. reflexivity. Qed.

Lemma search_all self s :
  DataService_search self None None None s = (visible s, observed s).
Proof.
  unfold DataService_search, session_exec, run_select, selected, window; simpl.
  rewrite filter_all by reflexivity. reflexivity.
Qed.

Lemma search_filter self f s :
  DataService_search self (Some f) None None s
  = (matching (Some f) s, observed s).
Proof. reflexivity. Qed.

Lemma search_page self filter page cs s :
  DataService_search self filter None (Some (Pagination_init page cs true)) s
  = (page_rows filter page cs s, observed s).
Proof.
  unfold DataService_search, session_exec, run_select, page_rows, matching,
    visible, observed.
  destruct filter as [f|]; simpl; unfold window, selected; simpl.
  - reflexivity.
  - rewrite filter_all by reflexivity. reflexivity.
Qed.

Lemma length_page_rows filter page cs s :
  length (page_rows filter page cs s)
  = Nat.min (Z.to_nat (Z.max cs 1 + 1))
      (length (matching filter s) - Z.to_nat ((Z.max page 1 - 1) * Z.max cs 1)).
Proof. unfold page_rows. rewrite length_take, length_drop. reflexivity. Qed.

(** ** The chunk loop, one iteration at a time *)

Lemma for_chunks_more {A} fuel self filter cs
    (body : list ModelInstance -> A -> Session -> A * Session) page acc s :
  Z.of_nat (length (page_rows filter page cs s)) = cs + 1 ->
  for_chunks (S fuel) self filter cs body page acc s
  = for_chunks fuel self filter cs body (page + 1)
      (body (but_last (page_rows filter page cs s)) acc (observed s)).1
      (body (but_last (page_rows filter page cs s)) acc (observed s)).2.
Proof.
  intros Hlen. cbn [for_chunks]. rewrite search_page.
  apply Z.eqb_eq in Hlen. rewrite Hlen.
  destruct (body _ acc (observed s)); reflexivity.
Qed.

Lemma for_chunks_last {A} fuel self filter cs
    (body : list ModelInstance -> A -> Session -> A * Session) page acc s :
  Z.of_nat (length (page_rows filter page cs s)) <> cs + 1 ->
  for_chunks (S fuel) self filter cs body page acc s
  = Some (body (page_rows filter page cs s) acc (observed s)).
Proof.
  intros Hlen. cbn [for_chunks]. rewrite search_page.
  apply Z.eqb_neq in Hlen. rewrite Hlen.
  destruct (body _ acc (observed s)); reflexivity.
Qed.

Lemma for_chunks_no_fuel {A} self filter cs
    (body : list ModelInstance -> A -> Session -> A * Session) page acc s :
  for_chunks 0 self filter cs body page acc s = None.
Proof. reflexivity. Qed.

(** A full page: the sentinel is trimmed and [chunk_size] records remain. *)
Lemma but_last_full_page filter page cs s :
  1 <= cs -> 1 <= page ->
  (page - 1) * cs + cs + 1 <= Z.of_nat (length (matching filter s)) ->
  Z.of_nat (length (page_rows filter page cs s)) = cs + 1 /\
  but_last (page_rows filter page cs s)
  = take (Z.to_nat cs) (drop (Z.to_nat ((page - 1) * cs)) (matching filter s)).
Proof.
  intros Hcs Hpage Hlen.
  assert (Hp : Z.max page 1 = page) by lia.
  assert (Hc : Z.max cs 1 = cs) by lia.
  assert (Hoff : 0 <= (page - 1) * cs) by nia.
  split.
  - rewrite length_page_rows, Hp, Hc. lia.
  - unfold but_last. rewrite length_page_rows. unfold page_rows.
    rewrite Hp, Hc, take_take. f_equal. lia.
Qed.

(** The last page: fewer than [chunk_size + 1] records are left. *)
Lemma short_page filter page cs s :
  1 <= cs -> 1 <= page ->
  Z.of_nat (length (matching filter s)) <= (page - 1) * cs + cs ->
  Z.of_nat (length (page_rows filter page cs s)) <> cs + 1 /\
  page_rows filter page cs s
  = drop (Z.to_nat ((page - 1) * cs)) (matching filter s).
Proof.
  intros Hcs Hpage Hlen.
  assert (Hp : Z.max page 1 = page) by lia.
  assert (Hc : Z.max cs 1 = cs) by lia.
  assert (Hoff : 0 <= (page - 1) * cs) by nia.
  split.
  - rewrite length_page_rows, Hp, Hc. lia.
  - unfold page_rows. rewrite Hp, Hc. apply take_ge.
    rewrite length_drop. lia.
Qed.

(** ** The chunked iterator on a table nobody writes to

    With a chunk size of at least 1 and a consumer that only reads, the scan
    ends and the chunks, in order, are the matching records. *)

Lemma for_chunks_collects self filter cs (k : nat) :
  forall page (chunks : list (list ModelInstance)) s,
    1 <= cs -> 1 <= page ->
    (length (matching filter s) - Z.to_nat ((page - 1) * cs) <= k)%nat ->
    exists fuel more,
      for_chunks fuel self filter cs
        (fun chunk chunks s => (chunks ++ [chunk], s)) page chunks s
      = Some (chunks ++ more, observed s) /\
      concat more = drop (Z.to_nat ((page - 1) * cs)) (matching filter s) /\
      Forall (fun c => Z.of_nat (length c) <= cs) more.
Proof.
  induction k as [|k IH]; intros page chunks s Hcs Hpage Hrem;
    assert (Hoff : 0 <= (page - 1) * cs) by nia;
    destruct (Z_le_gt_dec ((page - 1) * cs + cs + 1)
                (Z.of_nat (length (matching filter s)))) as [Hfull|Hshort];
    try lia.
  1, 3: destruct (short_page filter page cs s) as [L B]; try lia;
    exists 1%nat, [page_rows filter page cs s];
    rewrite (for_chunks_last _ _ _ _ _ _ _ _ L); cbn [fst snd concat];
    rewrite app_nil_r; (split; [reflexivity|split; [exact B|]]);
    constructor; [|constructor];
    rewrite B, length_drop; lia.
  destruct (but_last_full_page filter page cs s) as [L B]; try lia.
  assert (Hnext : Z.to_nat ((page + 1 - 1) * cs)
                  = (Z.to_nat ((page - 1) * cs) + Z.to_nat cs)%nat) by nia.
  destruct (IH (page + 1)
              (chunks ++ [but_last (page_rows filter page cs s)]) (observed s))
    as (fuel & more & Hrun & Hcat & Hlen);
    [lia | lia | rewrite matching_observed; lia |].
  exists (S fuel), (but_last (page_rows filter page cs s) :: more).
  rewrite (for_chunks_more _ _ _ _ _ _ _ _ L). cbn [fst snd].
  rewrite Hrun, observed_observed, <- app_assoc. cbn [app].
  split; [reflexivity|]. split.
  - cbn [concat]. rewrite Hcat, matching_observed, Hnext, B.
    rewrite <- drop_drop. apply take_drop.
  - constructor; [|exact Hlen]. rewrite B, length_take, length_drop. lia.
Qed.

(** X1.  On a table that is not written during the scan, for every chunk
    size of at least 1 the iterator ends, no chunk is longer than the chunk
    size, and the chunks put end to end are exactly the matching records in
    table order. *)
Theorem get_model_chunks_streams_all self filter cs s :
  1 <= cs ->
  exists fuel chunks,
    DataService__get_model_chunks fuel self filter cs s
    = Some (chunks, observed s) /\
    concat chunks = matching filter s /\
    Forall (fun c => Z.of_nat (length c) <= cs) chunks.
Proof.
  intros Hcs.
  destruct (for_chunks_collects self filter cs (length (matching filter s))
              1 [] s) as (fuel & more & Hrun & Hcat & Hlen); try lia.
  exists fuel, more. unfold DataService__get_model_chunks.
  rewrite Hrun. split; [reflexivity|]. split; [|exact Hlen].
  rewrite Hcat. replace ((1 - 1) * cs) with 0 by lia. reflexivity.
Qed.

(** ** The chunked iterator on full pages *)

Ltac full_page p :=
  match goal with
  | |- context [for_chunks (S ?fuel) ?self ?filter ?cs ?body p ?acc ?s] =>
      let L := fresh "L" in
      let B := fresh "B" in
      destruct (but_last_full_page filter p cs s) as [L B];
      [ try lia; rewrite ?matching_observed; lia ..
      | rewrite (for_chunks_more fuel self filter cs body p acc s L);
        cbn [fst snd]; rewrite B, ?matching_observed, ?observed_observed;
        clear L B ]
  end.

Ltac last_page p :=
  match goal with
  | |- context [for_chunks (S ?fuel) ?self ?filter ?cs ?body p ?acc ?s] =>
      let L := fresh "L" in
      let B := fresh "B" in
      destruct (short_page filter p cs s) as [L B];
      [ try lia; rewrite ?matching_observed; lia ..
      | rewrite (for_chunks_last fuel self filter cs body p acc s L);
        cbn [fst snd]; rewrite B, ?matching_observed, ?observed_observed;
        clear L B ]
  end.

(** C3.  For every chunk size of at least 1: when exactly [3 * chunk_size]
    records match, the iterator yields exactly three chunks, each of
    [chunk_size] records, and no empty fourth chunk; when exactly
    [3 * chunk_size + 1] match, it yields four chunks, three of
    [chunk_size] records and a last one of a single record.  In both cases
    the chunks are consecutive slices of the matching records: each page
    asks for [chunk_size + 1] rows and the extra row is trimmed. *)
Theorem get_model_chunks_three_pages self filter cs s fuel :
  1 <= cs ->
  (Z.of_nat (length (matching filter s)) = 3 * cs -> (3 <= fuel)%nat ->
   exists c1 c2 c3,
     DataService__get_model_chunks fuel self filter cs s
     = Some ([c1; c2; c3], observed s) /\
     Z.of_nat (length c1) = cs /\ Z.of_nat (length c2) = cs /\
     Z.of_nat (length c3) = cs /\
     c1 ++ c2 ++ c3 = matching filter s) /\
  (Z.of_nat (length (matching filter s)) = 3 * cs + 1 -> (4 <= fuel)%nat ->
   exists c1 c2 c3 c4,
     DataService__get_model_chunks fuel self filter cs s
     = Some ([c1; c2; c3; c4], observed s) /\
     Z.of_nat (length c1) = cs /\ Z.of_nat (length c2) = cs /\
     Z.of_nat (length c3) = cs /\ length c4 = 1%nat /\
     c1 ++ c2 ++ c3 ++ c4 = matching filter s).
Proof.
  intros Hcs. set (m := matching filter s). set (n := Z.to_nat cs).
  assert (E2 : Z.to_nat ((1 + 1 - 1) * cs) = n) by (unfold n; lia).
  assert (E3 : Z.to_nat ((1 + 1 + 1 - 1) * cs) = (n + n)%nat) by (unfold n; lia).
  assert (E4 : Z.to_nat ((1 + 1 + 1 + 1 - 1) * cs) = (n + n + n)%nat)
    by (unfold n; lia).
  split; intros Hlen Hfuel.
  - destruct fuel as [|[|[|fuel]]]; try lia.
    exists (take n m), (take n (drop n m)), (drop (n + n) m).
    unfold DataService__get_model_chunks, m in *.
    full_page 1. full_page (1 + 1). last_page (1 + 1 + 1).
    fold m. rewrite E2, E3. simpl.
    rewrite !length_take, !length_drop. fold m.
    repeat split; try (unfold n, m; lia).
    rewrite <- drop_drop, !take_drop. reflexivity.
  - destruct fuel as [|[|[|[|fuel]]]]; try lia.
    exists (take n m), (take n (drop n m)), (take n (drop (n + n) m)),
      (drop (n + n + n) m).
    unfold DataService__get_model_chunks, m in *.
    full_page 1. full_page (1 + 1). full_page (1 + 1 + 1).
    last_page (1 + 1 + 1 + 1).
    fold m. rewrite E2, E3, E4. simpl.
    rewrite !length_take, !length_drop. fold m.
    repeat split; try (unfold n, m; lia).
    rewrite <- (drop_drop m n (n + n)), take_drop.
    rewrite <- drop_drop, !take_drop. reflexivity.
Qed.

(** ** The chunked iterator for a chunk size below 1 *)








(** ** bulk_delete on a set that shrinks under the scan *)

(** C1.  Two records match, [chunk_size = 1].  On an autoflushing session
    the deletion of the first chunk is written before page 2 is read, page 2
    of the one remaining record is empty, and [bulk_delete] returns 1 with
    [b] still stored.  Without autoflush both records are visited and 2 is
    returned, but nothing was written and a later [search] still returns
    both.  With too little fuel for two pages there is no result at all. *)
Theorem bulk_delete_two_items fuel :
  let f := mkFilter [price_gt 0] in
  matching (Some f) (two_items true) = [item_a; item_b] /\
  DataService_bulk_delete 0 items f 1 (two_items true) = None /\
  DataService_bulk_delete 1 items f 1 (two_items true) = None /\
  DataService_bulk_delete (S (S fuel)) items f 1 (two_items true)
  = Some (1, mkSession [item_b] [] [] 0 true) /\
  (DataService_search items None None None (mkSession [item_b] [] [] 0 true)).1
  = [item_b] /\
  DataService_bulk_delete 0 items f 1 (two_items false) = None /\
  DataService_bulk_delete 1 items f 1 (two_items false) = None /\
  DataService_bulk_delete (S (S fuel)) items f 1 (two_items false)
  = Some (2, mkSession [item_a; item_b] [] [item_a; item_b] 0 false) /\
  (DataService_search items None None None
     (mkSession [item_a; item_b] [] [item_a; item_b] 0 false)).1
  = [item_a; item_b].
Proof.
  repeat split; vm_compute; reflexivity.
Qed.

(** ** update: a sparse patch against the schema *)

Lemma oid_setattr_fold (values : gmap string Value) fields instance :
  oid (fold_left
         (fun instance field =>
            match values !! field with
            | Some value => setattr instance field value
            | None => instance
            end) fields instance)
  = oid instance.
Proof.
  revert instance. induction fields as [|f fields IH]; intros instance; simpl.
  - reflexivity.
  - rewrite IH. destruct (values !! f); reflexivity.
Qed.

Lemma attrs_setattr_fold (values : gmap string Value) fields instance field :
  attrs (fold_left
           (fun instance field =>
              match values !! field with
              | Some value => setattr instance field value
              | None => instance
              end) fields instance) !! field
  = match (if decide (field ∈ fields) then values !! field else None) with
    | Some v => Some v
    | None => attrs instance !! field
    end.
Proof.
  revert instance. induction fields as [|f fields IH]; intros instance; simpl.
  - destruct (decide (field ∈ [])) as [Hin|_]; [|reflexivity].
    apply elem_of_nil in Hin. contradiction.
  - rewrite IH.
    destruct (decide (field ∈ fields)) as [Hin|Hnin];
      destruct (decide (field ∈ f :: fields)) as [Hin'|Hnin'].
    + destruct (values !! field) eqn:Hv; [reflexivity|].
      destruct (values !! f) eqn:Hf; [|reflexivity].
      simpl. rewrite lookup_insert_ne; [reflexivity|congruence].
    + exfalso. apply Hnin'. right. exact Hin.
    + apply elem_of_cons in Hin' as [->|Hin]; [|contradiction].
      destruct (values !! f) eqn:Hf; [|reflexivity].
      simpl. apply lookup_insert_eq.
    + destruct (values !! f) eqn:Hf; [|reflexivity].
      simpl. apply lookup_insert_ne. intros ->. apply Hnin'. left.
Qed.

(** What [model_dump(exclude_unset=True, exclude_defaults=True)] keeps. *)
Lemma model_dump_lookup m field :
  model_dump m true true !! field = patch_value (DModel m) field.
Proof.
  apply option_eq. intros v. unfold model_dump, patch_value, explicit_value.
  rewrite map_lookup_filter_Some. simpl.
  destruct (decide (field ∈ model_fields_set m)) as [Hset|Hunset].
  - destruct (field_values m !! field) as [w|] eqn:Hw.
    + destruct (decide (field_defaults m !! field = Some w)) as [Hd|Hd].
      * split; [|discriminate].
        intros (Hv & _ & Hnd). inversion Hv; subst.
        exfalso. apply (Hnd eq_refl). exact Hd.
      * split; [intros (Hv & _); exact Hv|].
        intros Hv. inversion Hv; subst. auto.
    + split; [intros (Hv & _); discriminate|discriminate].
  - split; [|discriminate]. intros (_ & Hu & _).
    exfalso. apply Hunset, Hu. reflexivity.
Qed.

Lemma patch_value_model m field v :
  patch_value (DModel m) field = Some v <->
  field ∈ model_fields_set m /\ field_values m !! field = Some v /\
  field_defaults m !! field <> Some v.
Proof.
  rewrite <- model_dump_lookup. unfold model_dump.
  rewrite map_lookup_filter_Some. simpl. tauto.
Qed.

Lemma patch_value_dict d field : patch_value (DDict d) field = d !! field.
Proof. unfold patch_value; simpl. destruct (d !! field); reflexivity. Qed.

Lemma update_model_lookup self instance data field :
  attrs (DataService__update_model self instance data) !! field
  = match (if decide (field ∈ __fields__ (Model self))
           then patch_value data field else None) with
    | Some v => Some v
    | None => attrs instance !! field
    end.
Proof.
  unfold DataService__update_model. rewrite attrs_setattr_fold.
  destruct data as [d|m].
  - rewrite patch_value_dict. reflexivity.
  - rewrite model_dump_lookup. reflexivity.
Qed.

(** C2 (amended).  [update] writes, of the fields the model declares, those
    that are keys of the mapping, or, for a partial-update object, those that
    were given explicitly with a value other than the field's declared
    default; every other attribute of the instance keeps its value.  The
    instance is the same object, and it is staged and committed once. *)
Theorem update_overwrites_patch_fields self instance data s field :
  let updated := (DataService_update self instance data s).1 in
  attrs updated !! field
  = match (if decide (field ∈ __fields__ (Model self))
           then patch_value data field else None) with
    | Some v => Some v
    | None => attrs instance !! field
    end /\
  (forall d, patch_value (DDict d) field = d !! field) /\
  (forall m v,
     patch_value (DModel m) field = Some v <->
     field ∈ model_fields_set m /\ field_values m !! field = Some v /\
     field_defaults m !! field <> Some v) /\
  oid updated = oid instance /\
  commits (DataService_update self instance data s).2 = S (commits s).
Proof.
  cbn zeta. unfold DataService_update. cbn [fst snd].
  split; [apply update_model_lookup|].
  split; [intros d; apply patch_value_dict|].
  split; [intros m v; apply patch_value_model|].
  split; [apply oid_setattr_fold|reflexivity].
Qed.

(** C2 as stated fails on a partial-update object: [ItemUpdate(price=0)]
    supplies [price] explicitly, with the value of its default, and the
    stored price 1 of [a] is not overwritten. *)
Lemma update_ignores_explicit_default :
  ~ writes_every_explicit_value items item_a (DModel price_reset) (two_items true).
Proof.
  intros Hclaim. specialize (Hclaim "price"%string).
  vm_compute in Hclaim. discriminate.
Qed.

(** ** Filter *)

Lemma Filter_matches_and_ f ps r :
  Filter_matches (Filter_and_ f ps) r = Filter_matches f r && holds_all ps r.
Proof. apply holds_all_app. Qed.

Lemma Filter_and_nil f : Filter_and_ f [] = f.
Proof. destruct f as [es]. unfold Filter_and_; simpl. rewrite app_nil_r. reflexivity. Qed.

Lemma Filter_apply_empty stm : Filter_apply (mkFilter []) stm = stm.
Proof.
  destruct stm as [w o off lim]. unfold Filter_apply, where_; simpl.
  rewrite app_nil_r. reflexivity.
Qed.

(** C8.  An empty Filter leaves a statement as it is; [and_] builds a Filter
    whose predicates are the receiver's followed by the given ones, and
    applying it keeps the rows on which the statement's earlier criteria,
    the receiver's predicates and the given ones are all true; [and_] with
    no argument gives back an equal Filter, matching the same records. *)
Theorem Filter_and_apply :
  (forall stm, Filter_apply (mkFilter []) stm = stm) /\
  (forall f ps, Filter_expressions (Filter_and_ f ps) = Filter_expressions f ++ ps) /\
  (forall f ps r,
     Filter_matches (Filter_and_ f ps) r = Filter_matches f r && holds_all ps r) /\
  (forall f ps stm tbl,
     selected (Filter_apply (Filter_and_ f ps) stm) tbl
     = List.filter (fun r => holds_all (whereclause stm) r
                             && (Filter_matches f r && holds_all ps r)) tbl) /\
  (forall f, Filter_and_ f [] = f) /\
  (forall f tbl,
     List.filter (Filter_matches (Filter_and_ f [])) tbl
     = List.filter (Filter_matches f) tbl).
Proof.
  split; [apply Filter_apply_empty|].
  split; [reflexivity|].
  split; [apply Filter_matches_and_|].
  split.
  - intros f ps stm tbl. unfold selected. apply filter_ext. intros r.
    unfold Filter_apply, where_; simpl.
    rewrite holds_all_app. f_equal. apply Filter_matches_and_.
  - split; [apply Filter_and_nil|].
    intros f tbl. rewrite Filter_and_nil. reflexivity.
Qed.

Lemma holds_all_singleton e r : holds_all [e] r = holds e r.
Proof. unfold holds_all; simpl. apply andb_true_r. Qed.

Lemma Filter_or_cases f ps r :
  Filter_matches (Filter_or_ f ps) r
  = match Filter_expressions f, ps with
    | [], [] => true
    | [], _ :: _ => holds_all ps r
    | _ :: _, [] => Filter_matches f r
    | _ :: _, _ :: _ => Filter_matches f r || holds_all ps r
    end.
Proof.
  destruct f as [es]. unfold Filter_or_, Filter_matches.
  cbn [Filter_expressions].
  destruct es as [|e es]; destruct ps as [|p ps]; cbn [truthy app];
    cbn [Filter_expressions]; [reflexivity|..];
    rewrite holds_all_singleton, holds_sm_or_; cbn [existsb];
    rewrite !holds_sm_and_, orb_false_r; reflexivity.
Qed.

(** C4.  [or_] builds a Filter that matches a record when all the receiver's
    predicates hold on it or all the given ones do, an empty side being left
    out of the disjunction: with an empty receiver the result matches what
    the given predicates match, with no given predicate it matches what the
    receiver matches, and with both empty it is the empty Filter, which
    matches every record. *)
Theorem Filter_or_matches f ps r :
  (Filter_expressions f <> [] -> ps <> [] ->
   Filter_matches (Filter_or_ f ps) r = Filter_matches f r || holds_all ps r) /\
  (Filter_expressions f = [] ->
   Filter_matches (Filter_or_ f ps) r = holds_all ps r) /\
  (ps = [] ->
   Filter_matches (Filter_or_ f ps) r = Filter_matches f r) /\
  (Filter_expressions f = [] -> ps = [] ->
   Filter_or_ f ps = mkFilter [] /\ Filter_matches (Filter_or_ f ps) r = true).
Proof.
  rewrite Filter_or_cases. destruct f as [es]. unfold Filter_matches; simpl.
  destruct es as [|e es]; destruct ps as [|p ps];
    repeat split; intros; try congruence; try reflexivity.
Qed.

(** ** Pagination *)

(** C5.  For all integers [p] and [s], [Pagination(p, s, fetch_one_more)]
    stores [max p 1] and [max s 1], both at least 1, and applying it sets
    the offset to [(page - 1) * page_size] and the limit to [page_size], or
    [page_size + 1] when [fetch_one_more] is set, leaving the criteria and
    the ordering of the statement alone: the rows returned are that window
    of the ordered selection. *)
Theorem Pagination_clamps_and_windows p s fetch_one_more stm :
  let pg := Pagination_init p s fetch_one_more in
  let lim := if fetch_one_more then _page_size pg + 1 else _page_size pg in
  _page pg = Z.max p 1 /\ _page_size pg = Z.max s 1 /\
  1 <= _page pg /\ 1 <= _page_size pg /\
  _fetch_one_more pg = fetch_one_more /\
  offset_clause (Pagination_apply pg stm) = Some ((_page pg - 1) * _page_size pg) /\
  limit_clause (Pagination_apply pg stm) = Some lim /\
  whereclause (Pagination_apply pg stm) = whereclause stm /\
  order_by_clause (Pagination_apply pg stm) = order_by_clause stm /\
  0 <= (_page pg - 1) * _page_size pg /\
  forall tbl,
    run_select (Pagination_apply pg stm) tbl
    = take (Z.to_nat lim)
        (drop (Z.to_nat ((_page pg - 1) * _page_size pg))
           (sort_rows (order_by_clause stm) (selected stm tbl))).
Proof.
  cbn zeta. unfold Pagination_apply, Pagination_init. cbn [_page _page_size _fetch_one_more].
  repeat match goal with |- _ /\ _ => split end;
    try reflexivity; try lia; try nia.
Qed.

(** ** get and the by-id methods *)

Lemma get_run self f s :
  DataService_get self f s = (one_or_none (matching (Some f) s), observed s).
Proof. reflexivity. Qed.

(** C6.  [get] returns the matching record when exactly one record matches,
    [None] when none does, and raises [MultipleResultsFound] when two or
    more match; it never picks one of several. *)
Theorem get_one_or_none self f s :
  (matching (Some f) s = [] -> (DataService_get self f s).1 = Ok None) /\
  (forall r, matching (Some f) s = [r] ->
     (DataService_get self f s).1 = Ok (Some r)) /\
  ((2 <= length (matching (Some f) s))%nat ->
     (DataService_get self f s).1 = Raise MultipleResultsFound) /\
  (DataService_get self f s).2 = observed s.
Proof.
  rewrite get_run. cbn [fst snd].
  repeat split.
  - intros ->. reflexivity.
  - intros r ->. reflexivity.
  - destruct (matching (Some f) s) as [|x [|y l]]; simpl; intros; try lia.
    reflexivity.
Qed.

Lemma py_index_nat {A} (t : list A) (i : nat) v :
  t !! i = Some v -> py_index t (Z.of_nat i) = Ok v.
Proof.
  intros Hv. pose proof (lookup_lt_Some _ _ _ Hv) as Hlt.
  unfold py_index. cbv zeta.
  destruct (Z.ltb_spec (Z.of_nat i) 0); [lia|].
  destruct (Z.ltb_spec (Z.of_nat i) 0); [lia|].
  destruct (Z.leb_spec (Z.of_nat (length t)) (Z.of_nat i)); [lia|].
  simpl. rewrite Nat2Z.id, Hv. reflexivity.
Qed.

Lemma key_filter_run cols : forall i id f,
  (i + length cols <= length id)%nat ->
  key_filter cols i id f
  = Ok (mkFilter (Filter_expressions f ++ zip_with col_eq cols (drop i id))).
Proof.
  induction cols as [|col cols IH]; intros i id f Hlen; simpl in *.
  - rewrite app_nil_r. destruct f; reflexivity.
  - destruct (lookup_lt_is_Some_2 id i) as [v Hv]; [lia|].
    rewrite (py_index_nat _ _ _ Hv), IH by lia.
    rewrite (drop_S _ _ _ Hv). simpl. rewrite <- app_assoc. reflexivity.
Qed.

Lemma get_by_id_run self id s :
  (length (primary_key (Model self)) <= length (id_components id))%nat ->
  DataService_get_by_id self id s
  = (one_or_none (List.filter (has_key self id) (visible s)), observed s).
Proof.
  intros Hlen. unfold DataService_get_by_id.
  fold (id_components id).
  unfold mbind, M_bind, raise_or.
  rewrite key_filter_run by (simpl; lia).
  rewrite get_run. reflexivity.
Qed.

Lemma observed_clean s : new s = [] -> deleted s = [] -> observed s = s.
Proof.
  destruct s as [r n d c af]; simpl. intros -> ->.
  unfold observed. destruct af; reflexivity.
Qed.

(** C7 (amended).  For an id with a component for every key column and
    equal to the key of no stored record, [update_by_id] returns [None] and
    [delete_by_id] returns [False]; neither raises.  The session is left as
    any read leaves it: nothing is staged or committed, the table read is
    the same, and a session with nothing staged is unchanged. *)
Theorem by_id_not_found self id data s :
  (length (primary_key (Model self)) <= length (id_components id))%nat ->
  List.filter (has_key self id) (visible s) = [] ->
  DataService_update_by_id self id data s = (Ok None, observed s) /\
  DataService_delete_by_id self id s = (Ok false, observed s) /\
  (DataService_search self None None None s).2 = observed s /\
  commits (observed s) = commits s /\
  visible (observed s) = visible s /\
  (autoflush s = false -> observed s = s) /\
  (new s = [] -> deleted s = [] -> observed s = s).
Proof.
  intros Hlen Hnone.
  split; [|split; [|repeat split]].
  - unfold DataService_update_by_id, mbind, M_bind.
    rewrite (get_by_id_run _ _ _ Hlen), Hnone. reflexivity.
  - unfold DataService_delete_by_id, mbind, M_bind.
    rewrite (get_by_id_run _ _ _ Hlen), Hnone. reflexivity.
  - apply commits_observed.
  - apply visible_observed.
  - unfold observed. intros ->. reflexivity.
  - apply observed_clean.
Qed.

(** C7 as stated covers every id that matches no record.  The empty tuple
    matches no record of an empty table, yet it has no component for the
    key column [id]: building the filter raises [IndexError] and neither
    method returns its not-found answer. *)
Lemma by_id_empty_tuple_raises :
  ~ not_found_is_answered items (IdSeq []) (DDict ∅) no_items.
Proof.
  intros Hclaim. destruct (Hclaim eq_refl) as [Hupdate _].
  vm_compute in Hupdate. discriminate.
Qed.

(** ** Filter objects are never mutated *)

Lemma new_Filter_spec st es ref st' :
  new_Filter st es = (ref, st') ->
  st !! ref = None /\ st' !! ref = Some (mkFilter es) /\
  (forall r g, st !! r = Some g -> st' !! r = Some g).
Proof.
  unfold new_Filter. intros Heq. inversion Heq; subst; clear Heq.
  assert (Hfresh : st !! fresh (dom st) = None)
    by (apply not_elem_of_dom, is_fresh).
  split; [exact Hfresh|]. split; [apply lookup_insert_eq|].
  intros r g Hr. rewrite lookup_insert_ne; [exact Hr|].
  intros <-. congruence.
Qed.

Lemma call_spec st c ref st' :
  call st c = Some (ref, st') ->
  st !! ref = None /\ is_Some (st' !! ref) /\
  (forall r g, st !! r = Some g -> st' !! r = Some g).
Proof.
  destruct c as [self es|self es]; cbn [call];
    destruct (st !! self) as [f|]; try discriminate;
    intros Heq; apply (inj Some) in Heq;
    destruct (new_Filter_spec _ _ _ _ Heq) as (H1 & H2 & H3);
    (split; [exact H1|split; [rewrite H2; eauto|exact H3]]).
Qed.

Lemma calls_spec cs : forall st refs st',
  calls cs st = Some (refs, st') ->
  Forall (fun r => st !! r = None) refs /\ NoDup refs /\
  (forall r g, st !! r = Some g -> st' !! r = Some g).
Proof.
  induction cs as [|c cs IH]; intros st refs st' Hrun; simpl in Hrun.
  - inversion Hrun; subst. repeat split; [constructor|constructor|auto].
  - destruct (call st c) as [[ref st1]|] eqn:Hcall; [|discriminate].
    destruct (calls cs st1) as [[refs1 st2]|] eqn:Hrest; [|discriminate].
    inversion Hrun; subst; clear Hrun.
    destruct (call_spec _ _ _ _ Hcall) as (Hfresh & [g Hg] & Hkeep).
    destruct (IH _ _ _ Hrest) as (Hnew & Hnodup & Hkeep').
    split; [|split].
    + constructor; [exact Hfresh|].
      eapply Forall_impl; [exact Hnew|]. intros r Hr; simpl in Hr.
      destruct (st !! r) as [h|] eqn:Hs; [|reflexivity].
      rewrite (Hkeep _ _ Hs) in Hr. discriminate.
    + constructor; [|exact Hnodup].
      intros Hin. rewrite Forall_forall in Hnew.
      rewrite (Hnew _ Hin) in Hg. discriminate.
    + intros r h Hr. apply Hkeep', Hkeep, Hr.
Qed.

(** C9.  [and_] and [or_] return a new Filter object and leave the receiver
    alone: after any sequence of combinator calls, on any objects of the
    store, a Filter that was there before holds the same predicates, so
    indexing it and applying it give what they gave before; each call
    returned an object that did not exist before, and no two calls returned
    the same one. *)
Theorem Filter_combinators_do_not_mutate cs st refs st' ref f :
  calls cs st = Some (refs, st') ->
  st !! ref = Some f ->
  st' !! ref = Some f /\
  (forall index, deref_getitem st' ref index = deref_getitem st ref index) /\
  (forall stm, deref_apply st' ref stm = deref_apply st ref stm) /\
  Forall (fun r => st !! r = None) refs /\
  (ref ∉ refs) /\
  NoDup refs.
Proof.
  intros Hrun Hf.
  destruct (calls_spec _ _ _ _ Hrun) as (Hnew & Hnodup & Hkeep).
  pose proof (Hkeep _ _ Hf) as Hf'.
  repeat split; try assumption.
  - intros index. unfold deref_getitem. rewrite Hf, Hf'. reflexivity.
  - intros stm. unfold deref_apply. rewrite Hf, Hf'. reflexivity.
  - intros Hin. rewrite Forall_forall in Hnew.
    rewrite (Hnew _ Hin) in Hf. discriminate.
Qed.

(** * The theorems at concrete inputs *)

Lemma get_model_chunks_three_pages_witness :
  (exists c1 c2 c3,
     DataService__get_model_chunks 3 items None 1 three_items
     = Some ([c1; c2; c3], observed three_items) /\
     Z.of_nat (length c1) = 1 /\ Z.of_nat (length c2) = 1 /\
     Z.of_nat (length c3) = 1 /\
     c1 ++ c2 ++ c3 = matching None three_items) /\
  (exists c1 c2 c3 c4,
     DataService__get_model_chunks 4 items None 1 four_items
     = Some ([c1; c2; c3; c4], observed four_items) /\
     Z.of_nat (length c1) = 1 /\ Z.of_nat (length c2) = 1 /\
     Z.of_nat (length c3) = 1 /\ length c4 = 1%nat /\
     c1 ++ c2 ++ c3 ++ c4 = matching None four_items).
Proof.
  split.
  - apply (proj1 (get_model_chunks_three_pages items None 1 three_items 3
                    ltac:(lia))); [reflexivity|lia].
  - apply (proj2 (get_model_chunks_three_pages items None 1 four_items 4
                    ltac:(lia))); [reflexivity|lia].
Defined.


Lemma update_overwrites_patch_fields_witness :
  attrs (DataService_update items item_a
           (DDict (<["price"%string := VInt 9]> ∅)) (two_items true)).1
    !! "price"%string
  = Some (VInt 9).
Proof.
  rewrite (proj1 (update_overwrites_patch_fields items item_a
                    (DDict (<["price"%string := VInt 9]> ∅)) (two_items true)
                    "price"%string)).
  vm_compute. reflexivity.
Defined.

Lemma Filter_or_matches_witness :
  Filter_matches
    (Filter_or_ (mkFilter [price_gt 1]) [Cmp OpEq "name" (VStr "a")]) item_a
  = Filter_matches (mkFilter [price_gt 1]) item_a
    || holds_all [Cmp OpEq "name" (VStr "a")] item_a.
Proof.
  apply (proj1 (Filter_or_matches (mkFilter [price_gt 1])
                  [Cmp OpEq "name" (VStr "a")] item_a)); discriminate.
Defined.

Lemma get_one_or_none_witness :
  (DataService_get items (mkFilter [price_gt 2]) (two_items true)).1 = Ok None /\
  (DataService_get items (mkFilter [price_gt 1]) (two_items true)).1
  = Ok (Some item_b) /\
  (DataService_get items (mkFilter [price_gt 0]) (two_items true)).1
  = Raise MultipleResultsFound.
Proof.
  split; [|split].
  - apply (proj1 (get_one_or_none items (mkFilter [price_gt 2]) (two_items true))).
    reflexivity.
  - apply (proj1 (proj2 (get_one_or_none items (mkFilter [price_gt 1])
                           (two_items true)))).
    reflexivity.
  - apply (proj1 (proj2 (proj2 (get_one_or_none items (mkFilter [price_gt 0])
                                  (two_items true))))).
    vm_compute. lia.
Defined.

Lemma by_id_not_found_witness :
  DataService_update_by_id items (IdScalar (VInt 7))
    (DDict (<["price"%string := VInt 9]> ∅)) (two_items true)
  = (Ok None, two_items true) /\
  DataService_delete_by_id items (IdScalar (VInt 7)) (two_items true)
  = (Ok false, two_items true).
Proof.
  destruct (by_id_not_found items (IdScalar (VInt 7))
              (DDict (<["price"%string := VInt 9]> ∅)) (two_items true))
    as (Hupdate & Hdelete & _).
  - simpl. lia.
  - reflexivity.
  - split; [exact Hupdate|exact Hdelete].
Defined.

Lemma Filter_combinators_do_not_mutate_witness :
  exists refs st',
    calls [Call_and_ 1 [price_gt 5]; Call_or_ 1 [price_gt 7]]
          {[1%positive := mkFilter [price_gt 0]]}
    = Some (refs, st') /\
    st' !! 1%positive = Some (mkFilter [price_gt 0]).
Proof.
  destruct (calls [Call_and_ 1 [price_gt 5]; Call_or_ 1 [price_gt 7]]
                  {[1%positive := mkFilter [price_gt 0]]})
    as [[refs st']|] eqn:Hrun.
  - exists refs, st'. split; [reflexivity|].
    apply (Filter_combinators_do_not_mutate _ _ _ _ 1%positive
             (mkFilter [price_gt 0]) Hrun).
    reflexivity.
  - vm_compute in Hrun. discriminate.
Defined.

(** * Further properties of the service and the builders *)

(** ** Staged work and what a flush does with it *)

Lemma filter_filter_andb {A} (p q : A -> bool) (l : list A) :
  List.filter p (List.filter q l) = List.filter (fun x => q x && p x) l.
Proof.
  induction l as [|x l IH]; simpl; [reflexivity|].
  destruct (q x); simpl; [destruct (p x)|]; rewrite IH; reflexivity.
Qed.

Lemma filter_nothing {A} (p : A -> bool) (l : list A) :
  (forall x, In x l -> p x = false) -> List.filter p l = [].
Proof.
  induction l as [|x l IH]; intros Hp; simpl; [reflexivity|].
  rewrite (Hp x) by (left; reflexivity).
  apply IH. intros y Hy. apply Hp. right. exact Hy.
Qed.

Lemma filter_all_in {A} (p : A -> bool) (l : list A) :
  (forall x, In x l -> p x = true) -> List.filter p l = l.
Proof.
  induction l as [|x l IH]; intros Hp; simpl; [reflexivity|].
  rewrite (Hp x) by (left; reflexivity).
  f_equal. apply IH. intros y Hy. apply Hp. right. exact Hy.
Qed.

Lemma same_object_refl r : same_object r r = true.
Proof. unfold same_object. apply Nat.eqb_refl. Qed.

Lemma fold_remove_object l : forall tbl,
  fold_left remove_object l tbl
  = List.filter (fun x => negb (existsb (fun r => same_object r x) l)) tbl.
Proof.
  induction l as [|r l IH]; intros tbl; simpl.
  - symmetry. apply filter_all. reflexivity.
  - rewrite IH. unfold remove_object. rewrite filter_filter_andb.
    apply filter_ext. intros x. rewrite negb_orb. reflexivity.
Qed.

Lemma fold_delete self chunk : forall s,
  fold_left (fun s i => snd (DataService_delete self i s)) chunk s
  = mkSession (rows s) (new s) (deleted s ++ chunk) (commits s) (autoflush s).
Proof.
  induction chunk as [|i chunk IH]; intros s; simpl.
  - rewrite app_nil_r. destruct s; reflexivity.
  - rewrite IH. simpl. rewrite <- app_assoc. reflexivity.
Qed.

Lemma fold_add chunk : forall s,
  session_add_all chunk s
  = mkSession (rows s) (new s ++ chunk) (deleted s) (commits s) (autoflush s).
Proof.
  unfold session_add_all.
  induction chunk as [|i chunk IH]; intros s; simpl.
  - rewrite app_nil_r. destruct s; reflexivity.
  - rewrite IH. simpl. rewrite <- app_assoc. reflexivity.
Qed.

(** On an autoflushing session, deleting objects and reading again shows the
    table without their rows. *)
Lemma visible_after_deletes self chunk s :
  autoflush s = true ->
  visible (fold_left (fun s i => snd (DataService_delete self i s)) chunk
             (observed s))
  = List.filter (fun x => negb (existsb (fun r => same_object r x) chunk))
      (visible s).
Proof.
  intros Haf. rewrite fold_delete. unfold visible, observed.
  destruct s as [r n d c af]; simpl in *; subst af; simpl.
  apply fold_remove_object.
Qed.

Lemma visible_without_autoflush s :
  autoflush s = false -> visible s = rows s.
Proof. unfold visible, observed. intros ->. reflexivity. Qed.

(** ** Bulk operations whose matches fit in one chunk *)

Lemma first_page_holds_all filter cs s :
  1 <= cs ->
  Z.of_nat (length (matching filter s)) <= cs ->
  Z.of_nat (length (page_rows filter 1 cs s)) <> cs + 1 /\
  page_rows filter 1 cs s = matching filter s.
Proof.
  intros Hcs Hfit.
  destruct (short_page filter 1 cs s) as [L B]; try lia.
  split; [exact L|]. rewrite B.
  replace ((1 - 1) * cs) with 0 by lia. reflexivity.
Qed.

(** X2.  When the matching records are no more than [chunk_size],
    [bulk_delete] reads one page, stages the deletion of every matching
    record and returns their number, without committing.  On an autoflushing
    session the next read finds no matching record left and no row that was
    not there before. *)
Theorem bulk_delete_within_one_chunk self f cs s fuel :
  1 <= cs ->
  Z.of_nat (length (matching (Some f) s)) <= cs ->
  exists s',
    DataService_bulk_delete (S fuel) self f cs s
    = Some (Z.of_nat (length (matching (Some f) s)), s') /\
    commits s' = commits s /\
    deleted s' = deleted (observed s) ++ matching (Some f) s /\
    (autoflush s = true ->
     matching (Some f) s' = [] /\
     forall x, In x (visible s') -> In x (visible s)).
Proof.
  intros Hcs Hfit.
  destruct (first_page_holds_all (Some f) cs s Hcs Hfit) as [L B].
  unfold DataService_bulk_delete.
  rewrite (for_chunks_last _ _ _ _ _ _ _ _ L), B.
  eexists. split; [reflexivity|].
  rewrite fold_delete. cbn [commits deleted].
  split; [apply commits_observed|]. split; [reflexivity|].
  intros Haf.
  pose proof (visible_after_deletes self (matching (Some f) s) s Haf) as Hvis.
  rewrite fold_delete in Hvis.
  unfold matching at 1. rewrite Hvis. split.
  - rewrite filter_filter_andb. apply filter_nothing. intros x Hx.
    destruct (Filter_matches f x) eqn:Hm; [|apply andb_false_r].
    rewrite andb_true_r. apply negb_false_iff, existsb_exists.
    exists x. split; [|apply same_object_refl].
    unfold matching. apply filter_In. split; assumption.
  - intros x Hx. apply filter_In in Hx. tauto.
Qed.

(** X3.  When the matching records are no more than [chunk_size],
    [bulk_update] patches them in one chunk, returns their number and
    commits exactly once, leaving nothing staged.  The commit is made even
    when no record matches. *)
Theorem bulk_update_within_one_chunk self f data cs s fuel :
  1 <= cs ->
  Z.of_nat (length (matching (Some f) s)) <= cs ->
  exists s',
    DataService_bulk_update (S fuel) self f data cs s
    = Some (Z.of_nat (length (matching (Some f) s)), s') /\
    s' = session_commit
           (session_add_all
              (map (fun i => DataService__update_model self i data)
                 (matching (Some f) s))
              (observed s)) /\
    commits s' = S (commits s) /\ new s' = [] /\ deleted s' = [].
Proof.
  intros Hcs Hfit.
  destruct (first_page_holds_all (Some f) cs s Hcs Hfit) as [L B].
  unfold DataService_bulk_update.
  rewrite (for_chunks_last _ _ _ _ _ _ _ _ L), B.
  eexists. split; [cbv zeta; rewrite length_map; reflexivity|].
  split; [reflexivity|].
  rewrite fold_add. cbn [session_commit commits new deleted flush].
  rewrite commits_observed. repeat split.
Qed.

(** ** Lookups by primary key *)

Lemma py_index_out_of_range {A} (t : list A) (i : nat) :
  (length t <= i)%nat -> py_index t (Z.of_nat i) = Raise IndexError.
Proof.
  intros Hge. unfold py_index. cbv zeta.
  destruct (Z.ltb_spec (Z.of_nat i) 0); [lia|].
  destruct (Z.ltb_spec (Z.of_nat i) 0); [lia|].
  destruct (Z.leb_spec (Z.of_nat (length t)) (Z.of_nat i)); [|lia].
  reflexivity.
Qed.

Lemma key_filter_short cols : forall i id f,
  (length id < i + length cols)%nat -> cols <> [] ->
  key_filter cols i id f = Raise IndexError.
Proof.
  induction cols as [|col cols IH]; intros i id f Hlen Hne; [congruence|].
  simpl in *.
  destruct (le_lt_dec (length id) i) as [Hout|Hin].
  - rewrite py_index_out_of_range by exact Hout. reflexivity.
  - destruct (lookup_lt_is_Some_2 id i Hin) as [v Hv].
    rewrite (py_index_nat _ _ _ Hv).
    apply IH; [lia|]. destruct cols; [simpl in Hlen; lia|discriminate].
Qed.

Lemma zip_with_col_eq_app cols : forall vs extra,
  (length cols <= length vs)%nat ->
  zip_with col_eq cols (vs ++ extra) = zip_with col_eq cols vs.
Proof.
  induction cols as [|c cols IH]; intros vs extra Hlen; [reflexivity|].
  destruct vs as [|v vs]; simpl in *; [lia|].
  rewrite IH by lia. reflexivity.
Qed.

(** X4.  The id is matched against the key columns by position.  An id with
    fewer components than the key has columns makes every by-id method raise
    [IndexError] before the session is touched; a scalar is the 1-tuple of
    itself; components beyond the key columns are ignored. *)
Theorem by_id_reads_id_by_position self s :
  (forall id data,
     (length (id_components id) < length (primary_key (Model self)))%nat ->
     DataService_get_by_id self id s = (Raise IndexError, s) /\
     DataService_update_by_id self id data s = (Raise IndexError, s) /\
     DataService_delete_by_id self id s = (Raise IndexError, s)) /\
  (forall v,
     DataService_get_by_id self (IdScalar v) s
     = DataService_get_by_id self (IdSeq [v]) s) /\
  (forall vs extra,
     (length (primary_key (Model self)) <= length vs)%nat ->
     DataService_get_by_id self (IdSeq (vs ++ extra)) s
     = DataService_get_by_id self (IdSeq vs) s).
Proof.
  split; [|split].
  - intros id data Hshort.
    assert (Hget : DataService_get_by_id self id s = (Raise IndexError, s)).
    { unfold DataService_get_by_id. fold (id_components id).
      unfold mbind, M_bind, raise_or.
      rewrite key_filter_short; [reflexivity|simpl; lia|].
      destruct (primary_key (Model self)); [simpl in Hshort; lia|discriminate]. }
    unfold DataService_update_by_id, DataService_delete_by_id, mbind, M_bind.
    rewrite Hget. repeat split.
  - reflexivity.
  - intros vs extra Hlen.
    rewrite !get_by_id_run by (simpl; rewrite ?length_app; lia).
    unfold has_key, key_predicates. simpl.
    rewrite zip_with_col_eq_app by exact Hlen. reflexivity.
Qed.

(** X5.  When exactly one record has the key, [update_by_id] is [update] on
    that record (patched, staged, committed once) and [delete_by_id] stages
    its deletion and returns [True] without committing. *)
Theorem by_id_found self id data s r :
  (length (primary_key (Model self)) <= length (id_components id))%nat ->
  List.filter (has_key self id) (visible s) = [r] ->
  DataService_get_by_id self id s = (Ok (Some r), observed s) /\
  DataService_update_by_id self id data s
  = (Ok (Some (DataService_update self r data (observed s)).1),
     (DataService_update self r data (observed s)).2) /\
  commits (DataService_update_by_id self id data s).2 = S (commits s) /\
  DataService_delete_by_id self id s
  = (Ok true, session_delete r (observed s)) /\
  commits (DataService_delete_by_id self id s).2 = commits s.
Proof.
  intros Hlen Hone.
  assert (Hget : DataService_get_by_id self id s = (Ok (Some r), observed s))
    by (rewrite get_by_id_run, Hone by exact Hlen; reflexivity).
  unfold DataService_update_by_id, DataService_delete_by_id, mbind, M_bind.
  rewrite Hget. cbn. rewrite commits_observed. repeat split.
Qed.

(** X6.  When two or more records have the key, the by-id methods raise
    [MultipleResultsFound]; nothing is patched, staged or committed. *)
Theorem by_id_ambiguous self id data s :
  (length (primary_key (Model self)) <= length (id_components id))%nat ->
  (2 <= length (List.filter (has_key self id) (visible s)))%nat ->
  DataService_get_by_id self id s = (Raise MultipleResultsFound, observed s) /\
  DataService_update_by_id self id data s
  = (Raise MultipleResultsFound, observed s) /\
  DataService_delete_by_id self id s
  = (Raise MultipleResultsFound, observed s).
Proof.
  intros Hlen Hmany.
  assert (Hget : DataService_get_by_id self id s
                 = (Raise MultipleResultsFound, observed s)).
  { rewrite get_by_id_run by exact Hlen.
    destruct (List.filter (has_key self id) (visible s)) as [|x [|y l]];
      simpl in Hmany; try lia. reflexivity. }
  unfold DataService_update_by_id, DataService_delete_by_id, mbind, M_bind.
  rewrite Hget. repeat split.
Qed.

(** X7.  On an autoflushing session, a record deleted by id is not found by
    id afterwards. *)
Theorem delete_by_id_then_get_by_id self id s r :
  autoflush s = true ->
  (length (primary_key (Model self)) <= length (id_components id))%nat ->
  List.filter (has_key self id) (visible s) = [r] ->
  (DataService_get_by_id self id (DataService_delete_by_id self id s).2).1
  = Ok None.
Proof.
  intros Haf Hlen Hone.
  assert (Hdel : DataService_delete_by_id self id s
                 = (Ok true, session_delete r (observed s))).
  { unfold DataService_delete_by_id, mbind, M_bind.
    rewrite get_by_id_run, Hone by exact Hlen. reflexivity. }
  rewrite Hdel. cbn [snd].
  rewrite get_by_id_run by exact Hlen. cbn [fst].
  pose proof (visible_after_deletes self [r] s Haf) as Hvis.
  cbn [fold_left DataService_delete snd] in Hvis. rewrite Hvis.
  rewrite filter_filter_andb.
  rewrite filter_nothing; [reflexivity|].
  intros x Hx.
  destruct (has_key self id x) eqn:Hk; [|apply andb_false_r].
  assert (Hin : In x (List.filter (has_key self id) (visible s)))
    by (apply filter_In; split; assumption).
  rewrite Hone in Hin. destruct Hin as [<-|[]].
  simpl. rewrite same_object_refl. reflexivity.
Qed.

(** ** Deleting and updating single records *)

Lemma visible_session_delete instance s :
  autoflush s = true ->
  visible (session_delete instance s) = remove_object (visible s) instance.
Proof.
  intros Haf. unfold visible, observed.
  destruct s as [r n d c af]; simpl in *; subst af; simpl.
  apply fold_left_app.
Qed.

(** X8.  [delete] only stages the deletion: it never commits, and a session
    without autoflush goes on returning the record.  On an autoflushing
    session the next read returns the table without the rows of that
    object. *)
Theorem delete_is_deferred self instance s :
  commits (DataService_delete self instance s).2 = commits s /\
  rows (DataService_delete self instance s).2 = rows s /\
  (autoflush s = false ->
   (DataService_search self None None None (DataService_delete self instance s).2).1
   = (DataService_search self None None None s).1) /\
  (autoflush s = true ->
   (DataService_search self None None None (DataService_delete self instance s).2).1
   = remove_object (DataService_search self None None None s).1 instance /\
   forall x,
     In x (DataService_search self None None None
             (DataService_delete self instance s).2).1 ->
     oid x <> oid instance).
Proof.
  rewrite !search_all. cbn [fst snd DataService_delete].
  split; [reflexivity|]. split; [reflexivity|]. split.
  - intros Haf. rewrite !visible_without_autoflush by exact Haf. reflexivity.
  - intros Haf. rewrite (visible_session_delete _ _ Haf).
    split; [reflexivity|].
    intros x Hx. apply filter_In in Hx as [_ Hx].
    apply negb_true_iff, Nat.eqb_neq in Hx. congruence.
Qed.

Lemma upsert_stored tbl u :
  existsb (same_object u) tbl = true ->
  upsert tbl u = map (fun x => if same_object u x then u else x) tbl.
Proof. unfold upsert. intros ->. reflexivity. Qed.

Lemma filter_replace (p : ModelInstance -> bool) u r : forall l,
  NoDup (map oid l) ->
  List.filter p l = [r] ->
  oid u = oid r ->
  p u = true ->
  List.filter p (map (fun x => if same_object u x then u else x) l) = [u].
Proof.
  induction l as [|x l IH]; intros Hnd Hone Hoid Hpu; simpl in *;
    [discriminate|].
  apply NoDup_cons in Hnd as [Hx Hnd].
  destruct (p x) eqn:Hpx.
  - inversion Hone as [[Hxr Hrest]]. subst x.
    assert (Hs : same_object u r = true)
      by (unfold same_object; rewrite Hoid; apply Nat.eqb_refl).
    rewrite Hs, Hpu. f_equal.
    replace (map (fun x => if same_object u x then u else x) l) with l;
      [first [exact Hrest|reflexivity]|].
    rewrite <- (map_id l) at 1. apply map_ext_in. intros y Hy.
    unfold same_object. rewrite Hoid.
    destruct (Nat.eqb_spec (oid r) (oid y)) as [Heq|]; [|reflexivity].
    exfalso. apply Hx. rewrite Heq. apply list_elem_of_In, in_map, Hy.
  - assert (Hin : In r l).
    { assert (In r (List.filter p l)) by (rewrite Hone; left; reflexivity).
      apply filter_In in H. tauto. }
    assert (Hs : same_object u x = false).
    { unfold same_object. rewrite Hoid. apply Nat.eqb_neq. intros Heq.
      apply Hx. rewrite <- Heq. apply list_elem_of_In, in_map, Hin. }
    rewrite Hs, Hpx. apply IH; assumption.
Qed.

(** X9.  On a session with nothing staged and one row per object, a record
    updated by id with a patch that leaves its key alone is found by id
    afterwards, carrying the patched values. *)
Theorem update_by_id_then_get_by_id self id data s r :
  new s = [] -> deleted s = [] ->
  NoDup (map oid (visible s)) ->
  (length (primary_key (Model self)) <= length (id_components id))%nat ->
  List.filter (has_key self id) (visible s) = [r] ->
  has_key self id (DataService__update_model self r data) = true ->
  (DataService_get_by_id self id (DataService_update_by_id self id data s).2).1
  = Ok (Some (DataService__update_model self r data)).
Proof.
  intros Hnew Hdel Hnd Hlen Hone Hkey.
  assert (Hupd : (DataService_update_by_id self id data s).2
                 = session_commit
                     (session_add (DataService__update_model self r data) s)).
  { unfold DataService_update_by_id, mbind, M_bind.
    rewrite get_by_id_run, Hone by exact Hlen. cbn.
    rewrite (observed_clean s Hnew Hdel). reflexivity. }
  rewrite Hupd, get_by_id_run by exact Hlen. cbn [fst].
  assert (Hvis : visible (session_commit
                            (session_add (DataService__update_model self r data) s))
                 = upsert (rows s) (DataService__update_model self r data)).
  { unfold visible, observed.
    destruct s as [tbl n d c af]; simpl in *; subst n d.
    destruct af; reflexivity. }
  assert (Hrows : visible s = rows s).
  { unfold visible. rewrite (observed_clean s Hnew Hdel). reflexivity. }
  rewrite Hvis, <- Hrows.
  assert (Hin : In r (visible s)).
  { assert (In r (List.filter (has_key self id) (visible s)))
      by (rewrite Hone; left; reflexivity).
    apply filter_In in H. tauto. }
  assert (Hoid : oid (DataService__update_model self r data) = oid r)
    by apply oid_setattr_fold.
  rewrite upsert_stored.
  - rewrite (filter_replace _ _ r); [reflexivity|assumption..].
  - apply existsb_exists. exists r. split; [exact Hin|].
    unfold same_object. rewrite Hoid. apply Nat.eqb_refl.
Qed.

(** ** search *)

Lemma search_run self filter sorting pagination s :
  DataService_search self filter sorting pagination s
  = (run_select (search_statement filter sorting pagination) (visible s),
     observed s).
Proof. reflexivity. Qed.

Lemma search_rows self filter sorting pagination s :
  (DataService_search self filter sorting pagination s).1
  = window (search_statement filter sorting pagination)
      (sort_rows (sorting_keys sorting) (matching filter s)).
Proof.
  rewrite search_run. cbn [fst]. unfold run_select. f_equal.
  destruct filter as [f|], sorting as [o|], pagination as [p|]; simpl;
    unfold selected; simpl; rewrite ?filter_all by reflexivity; reflexivity.
Qed.

Lemma insert_sorted_perm ks r l : insert_sorted ks r l ≡ₚ r :: l.
Proof.
  induction l as [|x l IH]; simpl; [reflexivity|].
  destruct (row_leb ks r x); [reflexivity|].
  rewrite IH. apply Permutation_swap.
Qed.

Lemma sort_rows_perm ks l : sort_rows ks l ≡ₚ l.
Proof.
  unfold sort_rows. destruct ks as [|k ks]; [reflexivity|].
  induction l as [|x l IH]; simpl; [reflexivity|].
  rewrite insert_sorted_perm, IH. reflexivity.
Qed.

Lemma window_sublist stm l : window stm l `sublist_of` l.
Proof.
  unfold window.
  destruct (offset_clause stm) as [n|], (limit_clause stm) as [m|].
  - etransitivity; [apply sublist_take|apply sublist_drop].
  - apply sublist_drop.
  - apply sublist_take.
  - reflexivity.
Qed.

Lemma window_paginated pg stm l :
  (length (window (Pagination_apply pg stm) l)
   <= Z.to_nat (if _fetch_one_more pg then _page_size pg + 1 else _page_size pg))%nat.
Proof.
  unfold window, Pagination_apply. simpl.
  rewrite length_take. lia.
Qed.

(** X10.  Whatever the sorting and the pagination, [search] returns only
    records of the table that match the filter.  Without pagination it
    returns each matching record once, in some order; without sorting it
    keeps the table order; with neither it returns exactly the matching
    records.  With a pagination it returns at most [page_size] records, or
    [page_size + 1] when one more is fetched. *)
Theorem search_returns_matching self filter sorting pagination s :
  (forall r,
     In r (DataService_search self filter sorting pagination s).1 ->
     In r (matching filter s)) /\
  (pagination = None ->
   (DataService_search self filter sorting pagination s).1 ≡ₚ matching filter s) /\
  (sorting = None ->
   (DataService_search self filter sorting pagination s).1
     `sublist_of` matching filter s) /\
  (sorting = None -> pagination = None ->
   (DataService_search self filter sorting pagination s).1 = matching filter s) /\
  (forall pg, pagination = Some pg ->
     (length (DataService_search self filter sorting pagination s).1
      <= Z.to_nat (if _fetch_one_more pg then _page_size pg + 1
                   else _page_size pg))%nat).
Proof.
  rewrite search_rows.
  split; [|split; [|split; [|split]]].
  - intros r Hr.
    apply list_elem_of_In.
    rewrite <- (sort_rows_perm (sorting_keys sorting) (matching filter s)).
    eapply elem_of_sublist; [|apply window_sublist].
    apply list_elem_of_In. exact Hr.
  - intros ->. unfold window.
    replace (offset_clause (search_statement filter sorting None))
      with (@None Z) by (destruct filter, sorting; reflexivity).
    replace (limit_clause (search_statement filter sorting None))
      with (@None Z) by (destruct filter, sorting; reflexivity).
    apply sort_rows_perm.
  - intros ->. apply window_sublist.
  - intros -> ->. destruct filter; reflexivity.
  - intros pg ->.
    destruct filter, sorting; simpl; apply window_paginated.
Qed.

(** X11.  [search] is a read: it commits nothing, and after it every search,
    with the same or with other arguments, returns what it would have
    returned before and leaves the same session. *)
Theorem search_is_repeatable self filter sorting pagination s :
  commits (DataService_search self filter sorting pagination s).2 = commits s /\
  (autoflush s = false ->
   (DataService_search self filter sorting pagination s).2 = s) /\
  forall filter' sorting' pagination',
    DataService_search self filter' sorting' pagination'
      (DataService_search self filter sorting pagination s).2
    = DataService_search self filter' sorting' pagination' s.
Proof.
  rewrite search_run. cbn [snd].
  split; [apply commits_observed|].
  split; [unfold observed; intros ->; reflexivity|].
  intros filter' sorting' pagination'.
  rewrite !search_run, visible_observed, observed_observed. reflexivity.
Qed.

(** ** Pagination *)

Lemma use_pagination_clamped pg u :
  1 <= _page pg -> 1 <= _page_size pg ->
  1 <= _page (use_pagination pg u) /\ 1 <= _page_size (use_pagination pg u).
Proof.
  intros Hp Hs. destruct u; simpl; lia.
Qed.

Lemma uses_pagination_clamped uses : forall pg,
  1 <= _page pg -> 1 <= _page_size pg ->
  1 <= _page (fold_left use_pagination uses pg) /\
  1 <= _page_size (fold_left use_pagination uses pg).
Proof.
  induction uses as [|u uses IH]; intros pg Hp Hs; simpl; [split; assumption|].
  destruct (use_pagination_clamped pg u Hp Hs) as [Hp' Hs'].
  apply IH; assumption.
Qed.

(** X12.  A Pagination made by the constructor and copied through any
    sequence of [page_], [page_size_] and [fetch_one_more_] calls keeps a
    page and a page size of at least 1, and each of these methods then
    changes its own field only, clamping the new value. *)
Theorem Pagination_copies_stay_clamped p n b uses :
  let pg := fold_left use_pagination uses (Pagination_init p n b) in
  1 <= _page pg /\ 1 <= _page_size pg /\
  (forall page,
     Pagination_page_ pg page
     = mkPagination (Z.max page 1) (_page_size pg) (_fetch_one_more pg)) /\
  (forall page_size,
     Pagination_page_size_ pg page_size
     = mkPagination (_page pg) (Z.max page_size 1) (_fetch_one_more pg)) /\
  (forall fetch_one_more,
     Pagination_fetch_one_more_ pg fetch_one_more
     = mkPagination (_page pg) (_page_size pg) fetch_one_more).
Proof.
  cbn zeta.
  destruct (uses_pagination_clamped uses (Pagination_init p n b))
    as [Hp Hs]; [simpl; lia..|].
  set (pg := fold_left use_pagination uses (Pagination_init p n b)) in *.
  unfold Pagination_page_, Pagination_page_size_, Pagination_fetch_one_more_,
    Pagination_init.
  repeat split; try assumption; intros; f_equal; lia.
Qed.

Lemma run_select_paginated pg stm tbl :
  run_select (Pagination_apply pg stm) tbl
  = take (Z.to_nat (if _fetch_one_more pg then _page_size pg + 1
                    else _page_size pg))
      (drop (Z.to_nat ((_page pg - 1) * _page_size pg))
         (sort_rows (order_by_clause stm) (selected stm tbl))).
Proof. reflexivity. Qed.

(** X13.  The extra record that [fetch_one_more] brings is the first record
    of the next page: the rows of page [p] fetched with one more are the
    rows of page [p] followed by the head of page [p + 1]. *)
Theorem fetch_one_more_is_next_page_head p n stm tbl :
  run_select (Pagination_apply (Pagination_init p n true) stm) tbl
  = run_select (Pagination_apply (Pagination_init p n false) stm) tbl
    ++ take 1 (run_select
                 (Pagination_apply (Pagination_init (Z.max p 1 + 1) n false) stm)
                 tbl).
Proof.
  rewrite !run_select_paginated. cbn [Pagination_init _page _page_size _fetch_one_more].
  set (R := sort_rows (order_by_clause stm) (selected stm tbl)).
  set (N := Z.to_nat (Z.max n 1)).
  set (o := Z.to_nat ((Z.max p 1 - 1) * Z.max n 1)).
  replace (Z.to_nat (Z.max n 1 + 1)) with (N + 1)%nat by (unfold N; lia).
  replace (Z.to_nat ((Z.max (Z.max p 1 + 1) 1 - 1) * Z.max n 1))
    with (o + N)%nat by (unfold o, N; nia).
  rewrite take_take, <- drop_drop.
  replace (1 `min` N)%nat with 1%nat by (unfold N; lia).
  symmetry. apply take_take_drop.
Qed.

(** X14.  Pages tile the result: the rows of pages 1 to [k], in order, are
    the first [k * page_size] rows of the ordered selection. *)
Theorem pages_tile_the_result n stm tbl (k : nat) :
  concat (map (fun i =>
                 run_select
                   (Pagination_apply (Pagination_init (Z.of_nat i) n false) stm)
                   tbl)
            (seq 1 k))
  = take (k * Z.to_nat (Z.max n 1))
      (sort_rows (order_by_clause stm) (selected stm tbl)).
Proof.
  induction k as [|k IH]; [reflexivity|].
  rewrite seq_S, map_app, concat_app, IH. cbn [map concat].
  rewrite app_nil_r, run_select_paginated.
  cbn [Pagination_init _page _page_size _fetch_one_more].
  replace (Z.to_nat ((Z.max (Z.of_nat (1 + k)) 1 - 1) * Z.max n 1))
    with (k * Z.to_nat (Z.max n 1))%nat by nia.
  rewrite take_take_drop. f_equal. lia.
Qed.

(** ** Filter: how the combinators compose *)

Lemma holds_all_comm a b r : holds_all (a ++ b) r = holds_all (b ++ a) r.
Proof. rewrite !holds_all_app. apply andb_comm. Qed.

(** X15.  Chained [and_] calls are one [and_] of all the predicates;
    applying [f.and_(ps)] is applying [f] and then [Filter(ps)]; the order
    in which predicates were added does not change what matches, and adding
    a Filter's own predicates again changes nothing. *)
Theorem Filter_and_composes f a b :
  Filter_and_ (Filter_and_ f a) b = Filter_and_ f (a ++ b) /\
  (forall stm,
     Filter_apply (Filter_and_ f a) stm
     = Filter_apply (mkFilter a) (Filter_apply f stm)) /\
  (forall r,
     Filter_matches (Filter_and_ f (a ++ b)) r
     = Filter_matches (Filter_and_ f (b ++ a)) r) /\
  (forall r,
     Filter_matches (Filter_and_ f (Filter_expressions f)) r = Filter_matches f r).
Proof.
  split; [|split; [|split]].
  - unfold Filter_and_; simpl. rewrite app_assoc. reflexivity.
  - intros stm. unfold Filter_apply, Filter_and_, where_; simpl.
    rewrite app_assoc. reflexivity.
  - intros r. rewrite !Filter_matches_and_. f_equal. apply holds_all_comm.
  - intros r. rewrite Filter_matches_and_. unfold Filter_matches.
    apply andb_diag.
Qed.

Lemma Filter_or_nonempty f ps :
  Filter_expressions f <> [] \/ ps <> [] ->
  exists e, Filter_expressions (Filter_or_ f ps) = [e].
Proof.
  destruct f as [es]. unfold Filter_or_; simpl.
  destruct es as [|e es], ps as [|p ps]; simpl; intros [H|H];
    try congruence; eauto.
Qed.

(** X16.  [or_] always returns a Filter of at most one predicate, so that
    indexing it anywhere but at 0 or -1 raises [IndexError].  As far as
    matching goes it is commutative and idempotent, a record matching
    [f.and_(ps)] also matches [f.or_(ps)], and chaining two [or_] calls on
    non-empty sides is the three-way disjunction. *)
Theorem Filter_or_laws f a b r :
  (length (Filter_expressions (Filter_or_ f a)) <= 1)%nat /\
  (forall i, i < -1 \/ 1 <= i ->
     Filter_getitem (Filter_or_ f a) i = Raise IndexError) /\
  Filter_matches (Filter_or_ f a) r
  = Filter_matches (Filter_or_ (mkFilter a) (Filter_expressions f)) r /\
  Filter_matches (Filter_or_ f (Filter_expressions f)) r = Filter_matches f r /\
  (Filter_matches (Filter_and_ f a) r = true ->
   Filter_matches (Filter_or_ f a) r = true) /\
  (Filter_expressions f <> [] -> a <> [] -> b <> [] ->
   Filter_matches (Filter_or_ (Filter_or_ f a) b) r
   = Filter_matches f r || holds_all a r || holds_all b r).
Proof.
  assert (Hlen : (length (Filter_expressions (Filter_or_ f a)) <= 1)%nat).
  { destruct f as [es]. unfold Filter_or_; simpl.
    destruct es, a; simpl; lia. }
  split; [exact Hlen|]. split; [|split; [|split; [|split]]].
  - intros i Hi. unfold Filter_getitem, py_index. cbv zeta.
    set (n := Z.of_nat (length (Filter_expressions (Filter_or_ f a)))) in *.
    assert (0 <= n <= 1) by (unfold n; lia).
    destruct (Z.ltb_spec i 0).
    + destruct (Z.ltb_spec (i + n) 0); [reflexivity|lia].
    + destruct (Z.ltb_spec i 0); [lia|].
      destruct (Z.leb_spec n i); [reflexivity|lia].
  - rewrite !Filter_or_cases. unfold Filter_matches. simpl.
    destruct (Filter_expressions f), a; try reflexivity. apply orb_comm.
  - rewrite Filter_or_cases. unfold Filter_matches.
    destruct (Filter_expressions f); [reflexivity|apply orb_diag].
  - rewrite Filter_matches_and_, Filter_or_cases. unfold Filter_matches.
    intros Hboth. apply andb_true_iff in Hboth as [Hf Ha].
    destruct (Filter_expressions f), a; try reflexivity; try assumption.
    rewrite Hf. reflexivity.
  - intros Hf Ha Hb.
    destruct (Filter_or_nonempty f a (or_introl Hf)) as [e He].
    rewrite (Filter_or_cases (Filter_or_ f a) b), He.
    destruct b as [|p b]; [congruence|].
    rewrite Filter_or_cases.
    destruct (Filter_expressions f), a; congruence.
Qed.

(** ** Indexing a Filter *)

Lemma py_index_nonneg {A} (t : list A) i :
  0 <= i ->
  py_index t i = match t !! Z.to_nat i with
                 | Some x => Ok x
                 | None => Raise IndexError
                 end.
Proof.
  intros Hi. unfold py_index. cbv zeta.
  destruct (Z.ltb_spec i 0); [lia|].
  destruct (Z.ltb_spec i 0); [lia|].
  destruct (Z.leb_spec (Z.of_nat (length t)) i); simpl; [|reflexivity].
  rewrite lookup_ge_None_2 by lia. reflexivity.
Qed.

Lemma py_index_negative {A} (t : list A) i :
  i < 0 ->
  py_index t i = if i + Z.of_nat (length t) <? 0 then Raise IndexError
                 else py_index t (i + Z.of_nat (length t)).
Proof.
  intros Hi. unfold py_index at 1. cbv zeta.
  destruct (Z.ltb_spec i 0); [|lia].
  destruct (Z.ltb_spec (i + Z.of_nat (length t)) 0); [reflexivity|].
  rewrite py_index_nonneg by lia.
  destruct (Z.leb_spec (Z.of_nat (length t)) (i + Z.of_nat (length t)));
    [lia|reflexivity].
Qed.

(** X17.  Indexing [f.and_(ps)]: the receiver's predicates come first, at
    their old positions, and the given ones follow in order; a negative
    index counts from the end; an index outside [-len, len) raises
    [IndexError]. *)
Theorem Filter_getitem_and_ f ps i :
  let n := Z.of_nat (length (Filter_expressions f)) in
  let m := Z.of_nat (length ps) in
  (0 <= i < n ->
   Filter_getitem (Filter_and_ f ps) i = Filter_getitem f i) /\
  (n <= i < n + m ->
   Filter_getitem (Filter_and_ f ps) i = py_index ps (i - n)) /\
  (- (n + m) <= i < 0 ->
   Filter_getitem (Filter_and_ f ps) i
   = Filter_getitem (Filter_and_ f ps) (i + (n + m))) /\
  (i < - (n + m) \/ n + m <= i ->
   Filter_getitem (Filter_and_ f ps) i = Raise IndexError).
Proof.
  intros n m. unfold Filter_getitem, Filter_and_. cbn [Filter_expressions].
  assert (Hlen : Z.of_nat (length (Filter_expressions f ++ ps)) = n + m)
    by (rewrite length_app; unfold n, m; lia).
  split; [|split; [|split]].
  - intros Hi. rewrite !py_index_nonneg by lia.
    rewrite lookup_app_l by (unfold n in Hi; lia). reflexivity.
  - intros Hi. rewrite !py_index_nonneg by lia.
    rewrite lookup_app_r by (unfold n in Hi; lia).
    replace (Z.to_nat i - length (Filter_expressions f))%nat
      with (Z.to_nat (i - n)) by (unfold n; lia).
    reflexivity.
  - intros Hi. rewrite py_index_negative, Hlen by lia.
    destruct (Z.ltb_spec (i + (n + m)) 0); [lia|reflexivity].
  - intros [Hi|Hi].
    + rewrite py_index_negative, Hlen by lia.
      destruct (Z.ltb_spec (i + (n + m)) 0); [reflexivity|lia].
    + rewrite py_index_nonneg by lia.
      rewrite lookup_ge_None_2 by lia. reflexivity.
Qed.

(** ** Sorting, and builders that hold nothing *)

(** X18.  Chained [asc_] and [desc_] calls accumulate the keys in call
    order, [desc_] marking each of its keys as descending; applying a
    Sorting adds its keys after those the statement already has, and
    applying [s.asc_(ks)] is applying [s] and then [Sorting(ks)]. *)
Theorem Sorting_composes o a b stm :
  Sorting_asc_ (Sorting_asc_ o a) b = Sorting_asc_ o (a ++ b) /\
  Sorting_desc_ (Sorting_desc_ o a) b = Sorting_desc_ o (a ++ b) /\
  Sorting_expressions (Sorting_desc_ (Sorting_asc_ o a) b)
  = Sorting_expressions o ++ a ++ map sm_desc b /\
  order_by_clause (Sorting_apply o stm)
  = order_by_clause stm ++ Sorting_expressions o /\
  Sorting_apply (Sorting_asc_ o a) stm
  = Sorting_apply (mkSorting a) (Sorting_apply o stm) /\
  Sorting_apply (mkSorting []) stm = stm.
Proof.
  unfold Sorting_asc_, Sorting_desc_, Sorting_apply, order_by; simpl.
  rewrite map_app, <- !app_assoc, app_nil_r.
  destruct stm; repeat split.
Qed.

(** X19.  [search] given an empty Filter or an empty Sorting does what it
    does given none. *)
Theorem search_ignores_empty_builders self filter sorting pagination s :
  DataService_search self (Some (mkFilter [])) sorting pagination s
  = DataService_search self None sorting pagination s /\
  DataService_search self filter (Some (mkSorting [])) pagination s
  = DataService_search self filter None pagination s.
Proof.
  unfold DataService_search.
  rewrite Filter_apply_empty.
  split; [reflexivity|].
  destruct filter as [f|]; reflexivity.
Qed.

(** ** Database *)

Lemma failed_Session_attempts k :
  fold_left use_database (repeat UseSession k) Database_new = Database_new.
Proof. induction k as [|k IH]; simpl; [reflexivity|exact IH]. Qed.

(** X20.  Before [init], [engine] and [Session] raise, and however often
    [Session] is tried the object stays as it was made; after [init] the
    first [Session] makes a session class bound to that engine, with
    [expire_on_commit] off. *)
Theorem Database_needs_init k db_url echo :
  let db := fold_left use_database (repeat UseSession k) Database_new in
  db = Database_new /\
  Database_engine db
  = Exception "Database uninitialized. Call db.init(...) method" /\
  Database_Session db
  = (Exception "Database uninitialized. Call db.init(...) method", db) /\
  Database_engine (Database_init db db_url echo)
  = Returned (create_async_engine db_url echo) /\
  (Database_Session (Database_init db db_url echo)).1
  = Returned (sessionmaker (create_async_engine db_url echo) false).
Proof.
  cbn zeta. rewrite failed_Session_attempts. repeat split.
Qed.

Lemma session_cls_kept cls uses : forall db,
  _session_cls db = Some cls ->
  _session_cls (fold_left use_database uses db) = Some cls.
Proof.
  induction uses as [|u uses IH]; intros db Hcls; simpl; [exact Hcls|].
  apply IH. destruct u as [db_url echo|]; simpl; [exact Hcls|].
  unfold Database_Session. rewrite Hcls. exact Hcls.
Qed.

(** X21.  Once [Session] has made its class, that class is what [Session]
    returns from then on, whatever is done with the object: a later [init]
    replaces the engine that [engine] returns but not the engine the
    session class is bound to. *)
Theorem Database_Session_is_kept db cls uses db_url echo :
  _session_cls db = Some cls ->
  Database_Session (fold_left use_database uses db)
  = (Returned cls, fold_left use_database uses db) /\
  Database_engine (Database_init (fold_left use_database uses db) db_url echo)
  = Returned (create_async_engine db_url echo) /\
  (Database_Session (Database_init (fold_left use_database uses db) db_url echo)).1
  = Returned cls.
Proof.
  intros Hcls.
  pose proof (session_cls_kept cls uses db Hcls) as Hkept.
  unfold Database_Session, Database_init. cbn [_session_cls].
  rewrite Hkept. repeat split.
Qed.

(** ** create and bulk_create *)

Lemma upsert_In tbl i : In i (upsert tbl i).
Proof.
  unfold upsert. destruct (existsb (same_object i) tbl) eqn:Hex.
  - apply existsb_exists in Hex as (x & Hx & Hsame).
    apply in_map_iff. exists x. rewrite Hsame. split; [reflexivity|exact Hx].
  - apply in_or_app. right. left. reflexivity.
Qed.

(** X22.  [create] raises when the data does not validate, leaving the
    session alone.  Otherwise it stages the new instance and commits once:
    nothing is left staged, and with no deletion pending the instance is in
    the table the next read returns.  From a partial-update object it
    passes on exactly the explicitly set fields, a default included. *)
Theorem create_stages_and_commits validate init self data s :
  (DataService__create_model validate init self data = None ->
   DataService_create validate init self data s = (Failed ValidationError, s)) /\
  (forall instance,
     DataService__create_model validate init self data = Some instance ->
     exists s',
       DataService_create validate init self data s = (Done instance, s') /\
       commits s' = S (commits s) /\ new s' = [] /\ deleted s' = [] /\
       (deleted s = [] ->
        In instance (DataService_search self None None None s').1)) /\
  (forall m field,
     DataService__create_model validate init self (DModel m)
     = init (model_dump m true false) /\
     model_dump m true false !! field = explicit_value (DModel m) field).
Proof.
  split; [|split].
  - intros Hnone. unfold DataService_create. rewrite Hnone. reflexivity.
  - intros instance Hsome. unfold DataService_create. rewrite Hsome.
    eexists. split; [reflexivity|].
    split; [reflexivity|]. split; [reflexivity|]. split; [reflexivity|].
    intros Hdel. rewrite search_all. cbn [fst].
    unfold visible, observed.
    destruct s as [tbl n d c af]; simpl in *; subst d.
    destruct af; simpl; rewrite fold_left_app; simpl; apply upsert_In.
  - intros m field. split; [reflexivity|].
    apply option_eq. intros v. unfold model_dump, explicit_value.
    rewrite map_lookup_filter_Some. simpl.
    destruct (decide (field ∈ model_fields_set m)) as [Hset|Hunset].
    + split; [intros [Hv _]; exact Hv|].
      intros Hv. split; [exact Hv|]. split; [intros _; exact Hset|discriminate].
    + split; [|discriminate]. intros (_ & Hu & _).
      exfalso. apply Hunset, Hu. reflexivity.
Qed.

Lemma chunk_boundary cs x :
  cs <> 0 -> 0 <= x ->
  (x + 1) / Z.abs cs
  = x / Z.abs cs + (if (x + 1) mod cs =? 0 then 1 else 0).
Proof.
  intros Hcs Hx.
  assert (Hdvd : (x + 1) mod cs = 0 <-> (x + 1) mod Z.abs cs = 0).
  { rewrite !Z.mod_divide by lia. symmetry. apply Z.divide_abs_l. }
  destruct (Z.eqb_spec ((x + 1) mod cs) 0) as [Hz|Hnz].
  - apply Hdvd in Hz. clear Hdvd.
    Z.div_mod_to_equations. nia.
  - assert ((x + 1) mod Z.abs cs <> 0) by tauto. clear Hdvd Hnz.
    Z.div_mod_to_equations. nia.
Qed.

Lemma chunks_rounded_up cs n :
  cs <> 0 -> 0 <= n ->
  n / Z.abs cs + (if n mod cs =? 0 then 0 else 1)
  = (n + Z.abs cs - 1) / Z.abs cs.
Proof.
  intros Hcs Hn.
  assert (Hdvd : n mod cs = 0 <-> n mod Z.abs cs = 0).
  { rewrite !Z.mod_divide by lia. symmetry. apply Z.divide_abs_l. }
  destruct (Z.eqb_spec (n mod cs) 0) as [Hz|Hnz].
  - apply Hdvd in Hz. clear Hdvd.
    Z.div_mod_to_equations. nia.
  - assert (n mod Z.abs cs <> 0) by tauto. clear Hdvd Hnz.
    Z.div_mod_to_equations. nia.
Qed.

Lemma bulk_create_loop_run validate init self values :
  forall cs count s,
    cs <> 0 -> 0 <= count ->
    Forall (fun d => is_Some (DataService__create_model validate init self d))
      values ->
    exists s',
      bulk_create_loop validate init self values cs count s
      = (Done (count + Z.of_nat (length values)), s') /\
      Z.of_nat (commits s')
      = Z.of_nat (commits s)
        + ((count + Z.of_nat (length values)) / Z.abs cs - count / Z.abs cs) /\
      (values <> [] -> (count + Z.of_nat (length values)) mod cs = 0 ->
       new s' = [] /\ deleted s' = []) /\
      (values = [] -> s' = s).
Proof.
  induction values as [|d values IH]; intros cs count s Hcs Hcount Hvalid.
  - exists s. simpl. rewrite Z.add_0_r.
    repeat split; try congruence. lia.
  - apply Forall_cons in Hvalid as [[i Hi] Hvalid].
    cbn [bulk_create_loop]. rewrite Hi. unfold py_mod.
    destruct (Z.eqb_spec cs 0) as [|_]; [contradiction|].
    set (s1 := if (count + 1) mod cs =? 0
               then session_commit (session_add i s) else session_add i s).
    destruct (IH cs (count + 1) s1 Hcs ltac:(lia) Hvalid)
      as (s' & Hrun & Hcommits & Hstaged & Hnil).
    exists s'.
    replace (count + Z.of_nat (length (d :: values)))
      with (count + 1 + Z.of_nat (length values))
      by (cbn [length]; lia).
    split; [exact Hrun|]. split; [|split; [|discriminate]].
    + rewrite Hcommits, (chunk_boundary cs count Hcs Hcount).
      unfold s1. destruct ((count + 1) mod cs =? 0); simpl; lia.
    + intros _ Hmod. destruct values as [|d' values].
      * rewrite (Hnil eq_refl). simpl in Hmod. rewrite Z.add_0_r in Hmod.
        unfold s1. rewrite Hmod. simpl. split; reflexivity.
      * apply Hstaged; [discriminate|exact Hmod].
Qed.

(** X23.  With a chunk size other than 0 and values that all validate,
    [bulk_create] returns the number of values and commits once per
    started chunk of [abs chunk_size] values (the number of values divided
    by it, rounded up); after a non-empty run nothing is left staged, and
    for no values the session is left as it was. *)
Theorem bulk_create_counts_and_commits validate init self values cs s :
  cs <> 0 ->
  Forall (fun d => is_Some (DataService__create_model validate init self d))
    values ->
  exists s',
    DataService_bulk_create validate init self values cs s
    = (Done (Z.of_nat (length values)), s') /\
    Z.of_nat (commits s')
    = Z.of_nat (commits s)
      + (Z.of_nat (length values) + Z.abs cs - 1) / Z.abs cs /\
    (values <> [] -> new s' = [] /\ deleted s' = []) /\
    (values = [] -> s' = s).
Proof.
  intros Hcs Hvalid.
  destruct (bulk_create_loop_run validate init self values cs 0 s Hcs
              ltac:(lia) Hvalid) as (s1 & Hrun & Hcommits & Hstaged & Hnil).
  rewrite Z.add_0_l in Hrun.
  unfold DataService_bulk_create. rewrite Hrun.
  unfold py_mod. destruct (Z.eqb_spec cs 0) as [|_]; [contradiction|].
  rewrite Z.add_0_l, Z.div_0_l, Z.sub_0_r in Hcommits by lia.
  rewrite Z.add_0_l in Hstaged.
  eexists. split; [reflexivity|].
  rewrite <- (chunks_rounded_up cs _ Hcs) by lia.
  destruct (Z.eqb_spec (Z.of_nat (length values) mod cs) 0) as [Hz|Hnz];
    cbn [negb].
  - split; [lia|]. split; [|exact Hnil].
    intros Hne. apply Hstaged; assumption.
  - split; [simpl; lia|]. split; [intros _; split; reflexivity|].
    intros ->. simpl in Hnz. rewrite Z.mod_0_l in Hnz by exact Hcs.
    contradiction.
Qed.

(** X24.  With [chunk_size = 0], [bulk_create] never returns: given no
    values it raises [ZeroDivisionError] at once; given values, the first
    is built and staged, none is committed, and the error is raised before
    the second is looked at (or the validation error of the first is). *)
Theorem bulk_create_chunk_size_zero validate init self s :
  DataService_bulk_create validate init self [] 0 s
  = (Failed ZeroDivisionError, s) /\
  (forall d values instance,
     DataService__create_model validate init self d = Some instance ->
     DataService_bulk_create validate init self (d :: values) 0 s
     = (Failed ZeroDivisionError, session_add instance s)) /\
  (forall d values,
     DataService__create_model validate init self d = None ->
     DataService_bulk_create validate init self (d :: values) 0 s
     = (Failed ValidationError, s)).
Proof.
  split; [reflexivity|]. split.
  - intros d values instance Hi.
    unfold DataService_bulk_create. cbn [bulk_create_loop]. rewrite Hi.
    reflexivity.
  - intros d values Hnone.
    unfold DataService_bulk_create. cbn [bulk_create_loop]. rewrite Hnone.
    reflexivity.
Qed.

Lemma bulk_create_loop_app validate init self good : forall rest cs count s,
  bulk_create_loop validate init self (good ++ rest) cs count s
  = match bulk_create_loop validate init self good cs count s with
    | (Done count', s') =>
        bulk_create_loop validate init self rest cs count' s'
    | (Failed e, s') => (Failed e, s')
    end.
Proof.
  induction good as [|d good IH]; intros rest cs count s; [reflexivity|].
  cbn [app bulk_create_loop].
  destruct (DataService__create_model validate init self d); [|reflexivity].
  destruct (py_mod (count + 1) cs); [|reflexivity].
  apply IH.
Qed.

(** X25.  When a value fails validation after [k] values that validated,
    [bulk_create] raises the validation error; the full chunks among the
    first [k] values were committed and stay so ([k] divided by
    [abs chunk_size], rounded down), and the values after the failing one
    are never looked at. *)
Theorem bulk_create_stops_at_invalid validate init self good bad rest cs s :
  cs <> 0 ->
  Forall (fun d => is_Some (DataService__create_model validate init self d))
    good ->
  DataService__create_model validate init self bad = None ->
  exists s',
    DataService_bulk_create validate init self (good ++ bad :: rest) cs s
    = (Failed ValidationError, s') /\
    Z.of_nat (commits s')
    = Z.of_nat (commits s) + Z.of_nat (length good) / Z.abs cs.
Proof.
  intros Hcs Hvalid Hbad.
  destruct (bulk_create_loop_run validate init self good cs 0 s Hcs
              ltac:(lia) Hvalid) as (s1 & Hrun & Hcommits & _).
  unfold DataService_bulk_create.
  rewrite bulk_create_loop_app, Hrun. cbn [bulk_create_loop].
  rewrite Hbad. exists s1. split; [reflexivity|].
  rewrite Hcommits, Z.add_0_l, Z.div_0_l by lia. lia.
Qed.

(** ** bulk_update over several chunks *)

Lemma filter_map_same {A} (p : A -> bool) (g : A -> A) (l : list A) :
  (forall x, In x l -> p (g x) = p x) ->
  List.filter p (map g l) = map g (List.filter p l).
Proof.
  induction l as [|x l IH]; intros Hp; simpl; [reflexivity|].
  rewrite (Hp x) by (left; reflexivity).
  rewrite IH by (intros y Hy; apply Hp; right; exact Hy).
  destruct (p x); reflexivity.
Qed.

Lemma same_oid_same_row (tbl : list ModelInstance) x y :
  NoDup (map oid tbl) -> In x tbl -> In y tbl -> oid x = oid y -> x = y.
Proof.
  induction tbl as [|z tbl IH]; intros Hnd Hx Hy Hoid; [destruct Hx|].
  simpl in Hnd. apply NoDup_cons in Hnd as [Hz Hnd].
  destruct Hx as [->|Hx], Hy as [->|Hy].
  - reflexivity.
  - exfalso. apply Hz. rewrite Hoid. apply list_elem_of_In, in_map, Hy.
  - exfalso. apply Hz. rewrite <- Hoid. apply list_elem_of_In, in_map, Hx.
  - apply IH; assumption.
Qed.

Lemma oid_update_model self x data :
  oid (DataService__update_model self x data) = oid x.
Proof. apply oid_setattr_fold. Qed.

Lemma same_object_by_oid a b a' b' :
  oid a = oid b' -> oid b = oid a' -> same_object a b = same_object a' b'.
Proof.
  unfold same_object. intros -> ->. apply Nat.eqb_sym.
Qed.

(** Writing a patched object replaces its own row and no other. *)
Lemma upsert_patch_rows self data done tbl c :
  NoDup (map oid tbl) -> In c tbl ->
  upsert (patch_rows self data done tbl) (DataService__update_model self c data)
  = patch_rows self data (done ++ [c]) tbl.
Proof.
  intros Hnd Hc. rewrite upsert_stored.
  - unfold patch_rows. rewrite map_map. apply map_ext_in. intros x Hx.
    rewrite existsb_app. cbn [existsb]. rewrite orb_false_r.
    rewrite (same_object_by_oid _ _ x c)
      by (rewrite ?oid_update_model; try reflexivity;
          destruct (existsb (same_object x) done);
          rewrite ?oid_update_model; reflexivity).
    destruct (same_object x c) eqn:Hxc.
    + apply Nat.eqb_eq in Hxc.
      rewrite (same_oid_same_row tbl x c Hnd Hx Hc Hxc).
      rewrite orb_true_r. reflexivity.
    + rewrite orb_false_r. reflexivity.
  - apply existsb_exists.
    exists (if existsb (same_object c) done
            then DataService__update_model self c data else c).
    split.
    + unfold patch_rows.
      apply (in_map (fun x => if existsb (same_object x) done
                              then DataService__update_model self x data
                              else x) tbl c Hc).
    + rewrite (same_object_by_oid _ _ c c)
        by (rewrite ?oid_update_model; try reflexivity;
            destruct (existsb (same_object c) done);
            rewrite ?oid_update_model; reflexivity).
      apply same_object_refl.
Qed.

Lemma fold_upsert_patch_rows self data tbl chunk : forall done,
  NoDup (map oid tbl) -> (forall c, In c chunk -> In c tbl) ->
  fold_left upsert (map (fun i => DataService__update_model self i data) chunk)
    (patch_rows self data done tbl)
  = patch_rows self data (done ++ chunk) tbl.
Proof.
  induction chunk as [|c chunk IH]; intros done Hnd Hin; simpl.
  - rewrite app_nil_r. reflexivity.
  - rewrite upsert_patch_rows by (auto; apply Hin; left; reflexivity).
    rewrite IH by (auto; intros y Hy; apply Hin; right; exact Hy).
    rewrite <- app_assoc. reflexivity.
Qed.

Lemma NoDup_oid_filter (p : ModelInstance -> bool) tbl :
  NoDup (map oid tbl) -> NoDup (map oid (List.filter p tbl)).
Proof.
  induction tbl as [|x tbl IH]; intros Hnd; simpl in *; [constructor|].
  apply NoDup_cons in Hnd as [Hx Hnd].
  destruct (p x); [|apply IH, Hnd].
  simpl. apply NoDup_cons. split; [|apply IH, Hnd].
  intros Hin. apply Hx.
  apply list_elem_of_In, in_map_iff in Hin as (y & Hoid & Hy).
  apply filter_In in Hy as [Hy _].
  rewrite <- Hoid. apply list_elem_of_In, in_map, Hy.
Qed.

(** Of the rows of distinct objects, those listed first are the patched
    ones. *)
Lemma patch_listed_first self data l1 l2 :
  NoDup (map oid (l1 ++ l2)) ->
  map (fun x => if existsb (same_object x) l1
                then DataService__update_model self x data else x) (l1 ++ l2)
  = map (fun i => DataService__update_model self i data) l1 ++ l2.
Proof.
  intros Hnd. rewrite map_app in Hnd.
  apply NoDup_app in Hnd as (_ & Hdisj & _).
  rewrite map_app. f_equal.
  - apply map_ext_in. intros x Hx.
    replace (existsb (same_object x) l1) with true; [reflexivity|].
    symmetry. apply existsb_exists. exists x.
    split; [exact Hx|apply same_object_refl].
  - rewrite <- (map_id l2) at 2. apply map_ext_in. intros x Hx.
    destruct (existsb (same_object x) l1) eqn:Hex; [|reflexivity].
    exfalso. apply existsb_exists in Hex as (y & Hy & Hsame).
    apply Nat.eqb_eq in Hsame.
    apply (Hdisj (oid y)).
    + apply list_elem_of_In, in_map, Hy.
    + rewrite <- Hsame. apply list_elem_of_In, in_map, Hx.
Qed.

Section BulkUpdate.

Variable self : DataService.
Variable f : Filter.
Variable data : Data.
Variable tbl : list ModelInstance.

Hypothesis distinct_objects : NoDup (map oid tbl).
Hypothesis patch_keeps_match :
  forall r, In r tbl ->
    Filter_matches f (DataService__update_model self r data)
    = Filter_matches f r.

Let m := List.filter (Filter_matches f) tbl.
Let upd := fun i => DataService__update_model self i data.

(** After the first [j] matching records were patched, the matching records
    are those, patched, followed by the others, untouched. *)
Lemma matching_patch_rows j c af :
  matching (Some f) (mkSession (patch_rows self data (take j m) tbl) [] [] c af)
  = map upd (take j m) ++ drop j m.
Proof.
  unfold matching, visible.
  rewrite observed_clean by reflexivity. cbn [rows].
  unfold patch_rows. rewrite filter_map_same.
  - fold m.
    pose proof (patch_listed_first self data (take j m) (drop j m)) as Hsplit.
    rewrite take_drop in Hsplit. apply Hsplit.
    apply NoDup_oid_filter, distinct_objects.
  - intros x Hx. destruct (existsb (same_object x) (take j m));
      [apply patch_keeps_match, Hx|reflexivity].
Qed.

Lemma page_rows_patch_rows page cs c af :
  1 <= cs -> 1 <= page ->
  (Z.to_nat ((page - 1) * cs) <= length m)%nat ->
  page_rows (Some f) page cs
    (mkSession (patch_rows self data (take (Z.to_nat ((page - 1) * cs)) m) tbl)
       [] [] c af)
  = take (Z.to_nat (cs + 1)) (drop (Z.to_nat ((page - 1) * cs)) m).
Proof.
  intros Hcs Hpage Hj. unfold page_rows.
  rewrite matching_patch_rows.
  replace (Z.max cs 1) with cs by lia.
  replace (Z.max page 1) with page by lia.
  rewrite drop_app_length'; [reflexivity|].
  rewrite length_map, length_take. lia.
Qed.

Lemma In_drop_matching j x : In x (drop j m) -> In x tbl.
Proof.
  intros Hx. apply list_elem_of_In in Hx.
  apply (elem_of_sublist _ m) in Hx; [|apply sublist_drop].
  apply list_elem_of_In, filter_In in Hx. tauto.
Qed.

(** One chunk of [bulk_update] on a session with nothing staged. *)
Lemma bulk_update_chunk j chunk c af :
  (forall x, In x chunk -> In x tbl) ->
  session_commit
    (session_add_all (map upd chunk)
       (mkSession (patch_rows self data (take j m) tbl) [] [] c af))
  = mkSession (patch_rows self data (take j m ++ chunk) tbl) [] [] (S c) af.
Proof.
  intros Hin. rewrite fold_add. unfold session_commit, flush. simpl.
  unfold upd.
  rewrite fold_upsert_patch_rows by (auto using distinct_objects).
  reflexivity.
Qed.

Lemma bulk_update_pages cs (k : nat) :
  forall page c af,
    1 <= cs -> 1 <= page ->
    (Z.to_nat ((page - 1) * cs) <= length m)%nat ->
    (length m - Z.to_nat ((page - 1) * cs) <= k)%nat ->
    exists fuel c',
      for_chunks fuel self (Some f) cs
        (fun chunk count s =>
           (count + Z.of_nat (length (map upd chunk)),
            session_commit (session_add_all (map upd chunk) s)))
        page (Z.of_nat (Z.to_nat ((page - 1) * cs)))
        (mkSession
           (patch_rows self data (take (Z.to_nat ((page - 1) * cs)) m) tbl)
           [] [] c af)
      = Some (Z.of_nat (length m),
              mkSession (patch_rows self data m tbl) [] [] c' af) /\
      (c < c')%nat.
Proof.
  induction k as [|k IH]; intros page c af Hcs Hpage Hj Hrem;
    set (j := Z.to_nat ((page - 1) * cs)) in *;
    assert (Hoff : 0 <= (page - 1) * cs) by nia;
    pose proof (page_rows_patch_rows page cs c af Hcs Hpage Hj) as Hrows;
    fold j in Hrows;
    destruct (le_lt_dec (j + Z.to_nat cs + 1) (length m)) as [Hfull|Hshort];
    try lia.
  1, 3: exists 1%nat, (S c);
    rewrite for_chunks_last
      by (rewrite Hrows, length_take, length_drop; lia);
    rewrite observed_clean by reflexivity;
    rewrite Hrows, take_ge by (rewrite length_drop; lia);
    rewrite bulk_update_chunk by apply In_drop_matching;
    rewrite take_drop, length_map, length_drop;
    (split; [|lia]); f_equal; f_equal; lia.
  assert (Hnext : Z.to_nat ((page + 1 - 1) * cs) = (j + Z.to_nat cs)%nat)
    by (unfold j; nia).
  destruct (IH (page + 1) (S c) af) as (fuel & c' & Hrun & Hc);
    [lia|lia|lia|lia|].
  exists (S fuel), c'. split; [|lia].
  rewrite for_chunks_more
    by (rewrite Hrows, length_take, length_drop; lia).
  rewrite observed_clean by reflexivity. cbn [fst snd].
  assert (Hchunk : but_last (page_rows (Some f) page cs
                     (mkSession (patch_rows self data (take j m) tbl) [] [] c af))
                   = take (Z.to_nat cs) (drop j m)).
  { unfold but_last. rewrite Hrows, length_take, length_drop, take_take.
    f_equal. lia. }
  rewrite Hchunk.
  rewrite bulk_update_chunk
    by (intros x Hx; apply (In_drop_matching j), list_elem_of_In;
        apply list_elem_of_In in Hx;
        eapply elem_of_sublist; [exact Hx|apply sublist_take]).
  rewrite take_take_drop, length_map, length_take, length_drop.
  rewrite Hnext in Hrun.
  replace (Z.of_nat j + Z.of_nat (Z.to_nat cs `min` (length m - j)))
    with (Z.of_nat (j + Z.to_nat cs)) by lia.
  exact Hrun.
Qed.

End BulkUpdate.

Lemma patch_rows_none self data tbl : patch_rows self data [] tbl = tbl.
Proof. unfold patch_rows. simpl. apply map_id. Qed.

Lemma patch_rows_matching self data (p : ModelInstance -> bool) tbl :
  NoDup (map oid tbl) ->
  patch_rows self data (List.filter p tbl) tbl
  = map (fun x => if p x then DataService__update_model self x data else x) tbl.
Proof.
  intros Hnd. unfold patch_rows. apply map_ext_in. intros x Hx.
  destruct (p x) eqn:Hp.
  - replace (existsb (same_object x) (List.filter p tbl)) with true;
      [reflexivity|].
    symmetry. apply existsb_exists. exists x.
    split; [apply filter_In; split; assumption|apply same_object_refl].
  - destruct (existsb (same_object x) (List.filter p tbl)) eqn:Hex;
      [|reflexivity].
    exfalso. apply existsb_exists in Hex as (y & Hy & Hsame).
    apply filter_In in Hy as [Hy Hpy]. apply Nat.eqb_eq in Hsame.
    rewrite (same_oid_same_row tbl x y Hnd Hx Hy Hsame) in Hp. congruence.
Qed.

(** X26.  On a session with nothing staged and one row per object, for
    every chunk size of at least 1 and every patch that does not change
    which records match the filter, [bulk_update] ends, returns the number
    of matching records, and leaves the table with every matching record
    patched once and every other row as it was, all committed. *)
Theorem bulk_update_patches_every_match self f data cs s :
  1 <= cs ->
  new s = [] -> deleted s = [] ->
  NoDup (map oid (rows s)) ->
  (forall r, In r (rows s) ->
     Filter_matches f (DataService__update_model self r data)
     = Filter_matches f r) ->
  exists fuel s',
    DataService_bulk_update fuel self f data cs s
    = Some (Z.of_nat (length (matching (Some f) s)), s') /\
    rows s'
    = map (fun x => if Filter_matches f x
                    then DataService__update_model self x data else x)
        (rows s) /\
    new s' = [] /\ deleted s' = [] /\ (commits s < commits s')%nat.
Proof.
  intros Hcs Hnew Hdel Hnd Hkeep.
  assert (Hm : matching (Some f) s = List.filter (Filter_matches f) (rows s)).
  { unfold matching, visible. rewrite (observed_clean s Hnew Hdel). reflexivity. }
  destruct s as [tbl n d c af]; simpl in *; subst n d.
  destruct (bulk_update_pages self f data tbl Hnd Hkeep cs
              (length (List.filter (Filter_matches f) tbl)) 1 c af)
    as (fuel & c' & Hrun & Hc); try lia.
  replace (Z.to_nat ((1 - 1) * cs)) with 0%nat in Hrun by lia.
  rewrite take_0, patch_rows_none in Hrun. change (Z.of_nat 0) with 0 in Hrun.
  exists fuel. eexists. unfold DataService_bulk_update.
  rewrite Hrun, Hm. split; [reflexivity|]. cbn [rows new deleted commits].
  split; [apply patch_rows_matching, Hnd|]. repeat split. exact Hc.
Qed.

(** ** bulk_delete over several chunks *)

Example chunks_of_five_by_two :
  odd_chunks 6 2 [1; 2; 3; 4; 5]%nat = [1; 2; 5]%nat /\
  even_chunks 6 2 [1; 2; 3; 4; 5]%nat = [3; 4]%nat.
Proof. split; reflexivity. Qed.


Lemma odd_chunks_fuel {A} n : forall fuel fuel' (l : list A),
  (1 <= n)%nat -> (length l < fuel)%nat -> (length l < fuel')%nat ->
  odd_chunks fuel n l = odd_chunks fuel' n l.
Proof.
  induction fuel as [|fuel IH]; intros fuel' l Hn Hf Hf'; [lia|].
  destruct fuel' as [|fuel']; [lia|]. simpl.
  destruct (Nat.leb_spec (length l) n); [reflexivity|].
  f_equal. apply IH; try exact Hn; rewrite length_drop; lia.
Qed.

Lemma even_chunks_fuel {A} n : forall fuel fuel' (l : list A),
  (1 <= n)%nat -> (length l < fuel)%nat -> (length l < fuel')%nat ->
  even_chunks fuel n l = even_chunks fuel' n l.
Proof.
  induction fuel as [|fuel IH]; intros fuel' l Hn Hf Hf'; [lia|].
  destruct fuel' as [|fuel']; [lia|]. simpl.
  destruct (Nat.leb_spec (length l) n); [reflexivity|].
  f_equal. apply IH; try exact Hn; rewrite length_drop; lia.
Qed.

Lemma length_odd_chunks {A} n : forall fuel (l : list A),
  (length (odd_chunks fuel n l) <= length l)%nat.
Proof.
  induction fuel as [|fuel IH]; intros l; simpl; [lia|].
  destruct (Nat.leb_spec (length l) n); [lia|].
  rewrite length_app, length_take.
  specialize (IH (drop (n + n) l)). rewrite length_drop in IH. lia.
Qed.

Lemma filter_out_middle (A C B : list ModelInstance) :
  NoDup (map oid (A ++ C ++ B)) ->
  List.filter (fun x => negb (existsb (fun r => same_object r x) C))
    (A ++ C ++ B)
  = A ++ B.
Proof.
  intros Hnd. rewrite !map_app in Hnd.
  apply NoDup_app in Hnd as (_ & HAC & Hnd).
  apply NoDup_app in Hnd as (_ & HCB & _).
  assert (Hin : forall x, In x C ->
            existsb (fun r => same_object r x) C = true).
  { intros x Hx. apply existsb_exists. exists x.
    split; [exact Hx|apply same_object_refl]. }
  assert (Hout : forall x, ~ oid x ∈ map oid C ->
            existsb (fun r => same_object r x) C = false).
  { intros x Hx. destruct (existsb _ C) eqn:Hex; [|reflexivity].
    exfalso. apply Hx. apply existsb_exists in Hex as (y & Hy & Hsame).
    apply Nat.eqb_eq in Hsame. rewrite <- Hsame.
    apply list_elem_of_In, in_map, Hy. }
  rewrite !List.filter_app.
  rewrite (filter_all_in _ A), (filter_nothing _ C), (filter_all_in _ B);
    [reflexivity| | |].
  - intros x Hx. rewrite Hout; [reflexivity|].
    intros HC. apply (HCB (oid x) HC).
    apply list_elem_of_In, in_map, Hx.
  - intros x Hx. rewrite Hin by exact Hx. reflexivity.
  - intros x Hx. rewrite Hout; [reflexivity|].
    intros HC. apply (HAC (oid x)); [|apply elem_of_app; left; exact HC].
    apply list_elem_of_In, in_map, Hx.
Qed.

Lemma matching_after_deletes self f chunk sess :
  autoflush sess = true ->
  matching (Some f)
    (fold_left (fun s i => snd (DataService_delete self i s)) chunk
       (observed sess))
  = List.filter (fun x => negb (existsb (fun r => same_object r x) chunk))
      (matching (Some f) sess).
Proof.
  intros Haf. unfold matching.
  rewrite (visible_after_deletes self chunk sess Haf), !filter_filter_andb.
  apply filter_ext. intros x. apply andb_comm.
Qed.

Lemma session_after_deletes self chunk sess :
  autoflush sess = true ->
  autoflush (fold_left (fun s i => snd (DataService_delete self i s)) chunk
               (observed sess)) = true /\
  commits (fold_left (fun s i => snd (DataService_delete self i s)) chunk
             (observed sess)) = commits sess /\
  (NoDup (map oid (visible sess)) ->
   NoDup (map oid (visible
                     (fold_left (fun s i => snd (DataService_delete self i s))
                        chunk (observed sess))))).
Proof.
  intros Haf. split; [|split].
  - rewrite fold_delete. cbn [autoflush]. unfold observed. rewrite Haf. exact Haf.
  - rewrite fold_delete. cbn [commits]. apply commits_observed.
  - intros Hnd. rewrite (visible_after_deletes self chunk sess Haf).
    apply NoDup_oid_filter, Hnd.
Qed.

Lemma page_rows_from page cs f sess :
  1 <= cs -> 1 <= page ->
  page_rows (Some f) page cs sess
  = take (Z.to_nat cs + 1)
      (drop (Z.to_nat ((page - 1) * cs)) (matching (Some f) sess)).
Proof.
  intros Hcs Hpage. unfold page_rows.
  replace (Z.max cs 1) with cs by lia.
  replace (Z.max page 1) with page by lia.
  f_equal. lia.
Qed.

Lemma bulk_delete_last_page self f cs page count sess Q :
  1 <= cs -> 1 <= page ->
  autoflush sess = true ->
  NoDup (map oid (visible sess)) ->
  drop (Z.to_nat ((page - 1) * cs)) (matching (Some f) sess) = Q ->
  (length Q <= Z.to_nat cs)%nat ->
  exists s',
    for_chunks 1 self (Some f) cs
      (fun chunk count s =>
         (count + Z.of_nat (length chunk),
          fold_left (fun s i => snd (DataService_delete self i s)) chunk s))
      page count sess
    = Some (count + Z.of_nat (length Q), s') /\
    matching (Some f) s'
    = take (Z.to_nat ((page - 1) * cs)) (matching (Some f) sess) /\
    commits s' = commits sess.
Proof.
  intros Hcs Hpage Haf Hnd HQ Hshort.
  set (j := Z.to_nat ((page - 1) * cs)) in *.
  set (M := matching (Some f) sess) in *.
  assert (HM : take j M ++ Q = M) by (rewrite <- HQ; apply take_drop).
  assert (HndM : NoDup (map oid M))
    by (unfold M, matching; apply NoDup_oid_filter, Hnd).
  pose proof (page_rows_from page cs f sess Hcs Hpage) as Hrows.
  fold j M in Hrows. rewrite HQ in Hrows.
  destruct (session_after_deletes self Q sess Haf) as (_ & Hcommits & _).
  eexists.
  rewrite for_chunks_last by (rewrite Hrows, length_take; lia).
  rewrite Hrows, take_ge by lia.
  split; [reflexivity|]. split; [|exact Hcommits]. cbn [snd].
  rewrite (matching_after_deletes self f Q sess Haf). fold M.
  pose proof (filter_out_middle (take j M) Q []) as Hmid.
  rewrite !app_nil_r, HM in Hmid. exact (Hmid HndM).
Qed.

Lemma bulk_delete_pages self f cs (k : nat) :
  forall page count sess Q,
    1 <= cs -> 1 <= page ->
    autoflush sess = true ->
    NoDup (map oid (visible sess)) ->
    drop (Z.to_nat ((page - 1) * cs)) (matching (Some f) sess) = Q ->
    (length Q <= k)%nat ->
    exists fuel s',
      for_chunks fuel self (Some f) cs
        (fun chunk count s =>
           (count + Z.of_nat (length chunk),
            fold_left (fun s i => snd (DataService_delete self i s)) chunk s))
        page count sess
      = Some (count + Z.of_nat (length (odd_chunks (S (length Q))
                                           (Z.to_nat cs) Q)), s') /\
      matching (Some f) s'
      = take (Z.to_nat ((page - 1) * cs)) (matching (Some f) sess)
        ++ even_chunks (S (length Q)) (Z.to_nat cs) Q /\
      commits s' = commits sess.
Proof.
  induction k as [|k IH]; intros page count sess Q Hcs Hpage Haf Hnd HQ Hk;
    destruct (le_lt_dec (length Q) (Z.to_nat cs)) as [Hshort|Hfull];
    try lia.
  1, 2: destruct (bulk_delete_last_page self f cs page count sess Q)
      as (s' & Hrun & Hmatch & Hc); try assumption;
    exists 1%nat, s'; cbn [odd_chunks even_chunks];
    destruct (Nat.leb_spec (length Q) (Z.to_nat cs)); [|lia];
    rewrite app_nil_r; repeat split; assumption.
  set (j := Z.to_nat ((page - 1) * cs)) in *.
  set (n := Z.to_nat cs) in *.
  set (M := matching (Some f) sess) in *.
  assert (Hoff : 0 <= (page - 1) * cs) by nia.
  assert (HM : take j M ++ Q = M) by (rewrite <- HQ; apply take_drop).
  assert (HndM : NoDup (map oid M))
    by (unfold M, matching; apply NoDup_oid_filter, Hnd).
  pose proof (page_rows_from page cs f sess Hcs Hpage) as Hrows.
  fold j n M in Hrows. rewrite HQ in Hrows.
  assert (Hchunk : but_last (page_rows (Some f) page cs sess) = take n Q).
  { unfold but_last. rewrite Hrows, length_take, take_take. f_equal. lia. }
  destruct (session_after_deletes self (take n Q) sess Haf)
    as (Haf1 & Hcommits1 & Hnd1).
  set (sess1 := fold_left (fun s i => snd (DataService_delete self i s))
                  (take n Q) (observed sess)) in *.
  assert (HM1 : matching (Some f) sess1 = take j M ++ drop n Q).
  { unfold sess1. rewrite (matching_after_deletes self f (take n Q) sess Haf).
    fold M.
    pose proof (filter_out_middle (take j M) (take n Q) (drop n Q)) as Hmid.
    rewrite take_drop, HM in Hmid. exact (Hmid HndM). }
  assert (Hj : length (take j M) = j).
  { rewrite length_take. apply (f_equal length) in HQ.
    rewrite length_drop in HQ. fold j M in HQ. lia. }
  assert (Hnext : Z.to_nat ((page + 1 - 1) * cs) = (j + n)%nat)
    by (unfold j, n; nia).
  assert (HQ1 : drop (Z.to_nat ((page + 1 - 1) * cs)) (matching (Some f) sess1)
                = drop (n + n) Q).
  { rewrite Hnext, HM1. rewrite <- Hj at 1.
    rewrite drop_app_add, drop_drop. reflexivity. }
  destruct (IH (page + 1) (count + Z.of_nat (length (take n Q))) sess1
              (drop (n + n) Q)) as (fuel & s' & Hrun & Hmatch & Hc);
    try assumption; try lia.
  { apply Hnd1, Hnd. }
  { rewrite length_drop. lia. }
  exists (S fuel), s'.
  rewrite for_chunks_more by (rewrite Hrows, length_take; lia).
  cbn [fst snd]. rewrite Hchunk. fold sess1. fold n in Hrun, Hmatch.
  rewrite Hrun, Hmatch, Hc, Hcommits1, Hnext, HM1.
  rewrite <- Hj at 1. rewrite take_app_add.
  rewrite (odd_chunks_fuel n (S (length (drop (n + n) Q))) (length Q))
    by (rewrite ?length_drop; lia).
  rewrite (even_chunks_fuel n (S (length (drop (n + n) Q))) (length Q))
    by (rewrite ?length_drop; lia).
  cbn [odd_chunks even_chunks].
  destruct (Nat.leb_spec (length Q) n); [lia|].
  rewrite length_app, <- app_assoc.
  split; [f_equal; f_equal; lia|]. split; reflexivity.
Qed.

(** X27.  On an autoflushing session with one row per object, for every
    chunk size [n] of at least 1, [bulk_delete] ends without committing and
    deletes every other chunk of the matching records: with the matching
    records cut into chunks of [n], it deletes the first, third, fifth, ...
    chunk and returns their total length, and the chunks in between still
    match afterwards.  So whenever more than [n] records match, it returns
    less than their number and leaves matching records behind. *)
Theorem bulk_delete_takes_every_other_chunk self f cs s :
  1 <= cs ->
  autoflush s = true ->
  NoDup (map oid (visible s)) ->
  exists fuel s',
    DataService_bulk_delete fuel self f cs s
    = Some (Z.of_nat (length (odd_chunks (S (length (matching (Some f) s)))
                                (Z.to_nat cs) (matching (Some f) s))), s') /\
    matching (Some f) s'
    = even_chunks (S (length (matching (Some f) s))) (Z.to_nat cs)
        (matching (Some f) s) /\
    commits s' = commits s /\
    ((Z.to_nat cs < length (matching (Some f) s))%nat ->
     (length (odd_chunks (S (length (matching (Some f) s))) (Z.to_nat cs)
                (matching (Some f) s))
      < length (matching (Some f) s))%nat /\
     matching (Some f) s' <> []).
Proof.
  intros Hcs Haf Hnd.
  set (m := matching (Some f) s). set (n := Z.to_nat cs).
  destruct (bulk_delete_pages self f cs (length m) 1 0 s m)
    as (fuel & s' & Hrun & Hmatch & Hc); try assumption; try lia.
  { replace (Z.to_nat ((1 - 1) * cs)) with 0%nat by lia. reflexivity. }
  replace (Z.to_nat ((1 - 1) * cs)) with 0%nat in Hmatch by lia.
  rewrite take_0 in Hmatch. cbn [app] in Hmatch. fold n in Hrun, Hmatch.
  exists fuel, s'. unfold DataService_bulk_delete.
  rewrite Hrun, Hmatch. split; [reflexivity|]. split; [reflexivity|].
  split; [exact Hc|]. intros Hmore.
  cbn [odd_chunks even_chunks].
  destruct (Nat.leb_spec (length m) n); [lia|]. split.
  - rewrite length_app, length_take.
    pose proof (length_odd_chunks n (length m) (drop (n + n) m)) as Hlen.
    rewrite length_drop in Hlen. assert (1 <= n)%nat by (unfold n; lia). lia.
  - intros Hnil. apply app_eq_nil in Hnil as [Hnil _].
    apply (f_equal length) in Hnil.
    rewrite length_take, length_drop in Hnil.
    assert (1 <= n)%nat by (unfold n; lia). simpl in Hnil. lia.
Qed.

(** * The further properties at concrete inputs *)

Lemma get_model_chunks_streams_all_witness :
  exists fuel chunks,
    DataService__get_model_chunks fuel items None 2 three_items
    = Some (chunks, observed three_items) /\
    concat chunks = matching None three_items /\
    Forall (fun c => Z.of_nat (length c) <= 2) chunks.
Proof.
  apply (get_model_chunks_streams_all items None 2 three_items). lia.
Defined.

Lemma bulk_delete_within_one_chunk_witness :
  exists s',
    DataService_bulk_delete 1 items (mkFilter [price_gt 1]) 2 three_items
    = Some (2, s') /\
    commits s' = 0%nat /\
    deleted s' = [item_b; item_c] /\
    (autoflush three_items = true ->
     matching (Some (mkFilter [price_gt 1])) s' = [] /\
     forall x, In x (visible s') -> In x (visible three_items)).
Proof.
  apply (bulk_delete_within_one_chunk items (mkFilter [price_gt 1]) 2
           three_items 0); [lia|vm_compute; discriminate].
Defined.

Lemma bulk_update_within_one_chunk_witness :
  exists s',
    DataService_bulk_update 1 items (mkFilter [price_gt 9]) (new_price 0) 2
      three_items
    = Some (0, s') /\
    s' = session_commit (session_add_all [] (observed three_items)) /\
    commits s' = 1%nat /\ new s' = [] /\ deleted s' = [].
Proof.
  apply (bulk_update_within_one_chunk items (mkFilter [price_gt 9])
           (new_price 0) 2 three_items 0); [lia|vm_compute; discriminate].
Defined.

Lemma by_id_reads_id_by_position_witness :
  DataService_get_by_id items (IdSeq []) (two_items true)
  = (Raise IndexError, two_items true) /\
  DataService_get_by_id items (IdSeq ([VInt 2] ++ [VInt 8])) (two_items true)
  = DataService_get_by_id items (IdSeq [VInt 2]) (two_items true).
Proof.
  split.
  - apply (proj1 (by_id_reads_id_by_position items (two_items true))
             (IdSeq []) (new_price 0)).
    simpl. lia.
  - apply (proj2 (proj2 (by_id_reads_id_by_position items (two_items true)))).
    simpl. lia.
Defined.

Lemma by_id_found_witness :
  DataService_delete_by_id items (IdScalar (VInt 2)) (two_items true)
  = (Ok true, session_delete item_b (observed (two_items true))).
Proof.
  apply (by_id_found items (IdScalar (VInt 2)) (new_price 0) (two_items true)
           item_b); [simpl; lia|reflexivity].
Defined.

Lemma by_id_ambiguous_witness :
  DataService_delete_by_id items (IdScalar (VInt 1)) twin_items
  = (Raise MultipleResultsFound, observed twin_items).
Proof.
  apply (by_id_ambiguous items (IdScalar (VInt 1)) (new_price 0) twin_items);
    [simpl; lia|vm_compute; lia].
Defined.

Lemma delete_by_id_then_get_by_id_witness :
  (DataService_get_by_id items (IdScalar (VInt 2))
     (DataService_delete_by_id items (IdScalar (VInt 2)) (two_items true)).2).1
  = Ok None.
Proof.
  apply (delete_by_id_then_get_by_id items (IdScalar (VInt 2)) (two_items true)
           item_b); [reflexivity|simpl; lia|reflexivity].
Defined.

Lemma delete_is_deferred_witness :
  (DataService_search items None None None
     (DataService_delete items item_a (two_items false)).2).1
  = (DataService_search items None None None (two_items false)).1 /\
  (DataService_search items None None None
     (DataService_delete items item_a (two_items true)).2).1
  = remove_object (DataService_search items None None None (two_items true)).1
      item_a.
Proof.
  split.
  - apply (proj1 (proj2 (proj2 (delete_is_deferred items item_a (two_items false))))).
    reflexivity.
  - apply (proj2 (proj2 (proj2 (delete_is_deferred items item_a (two_items true))))).
    reflexivity.
Defined.

Lemma update_by_id_then_get_by_id_witness :
  (DataService_get_by_id items (IdScalar (VInt 2))
     (DataService_update_by_id items (IdScalar (VInt 2)) (new_price 9)
        (two_items true)).2).1
  = Ok (Some (DataService__update_model items item_b (new_price 9))).
Proof.
  apply (update_by_id_then_get_by_id items (IdScalar (VInt 2)) (new_price 9)
           (two_items true) item_b);
    [reflexivity|reflexivity| |simpl; lia|reflexivity|vm_compute; reflexivity].
  apply (bool_decide_unpack _). vm_compute. exact I.
Defined.

Lemma search_returns_matching_witness :
  (DataService_search items (Some (mkFilter [price_gt 1])) None None three_items).1
  = matching (Some (mkFilter [price_gt 1])) three_items /\
  (length (DataService_search items None None
             (Some (Pagination_init 1 2 true)) three_items).1
   <= Z.to_nat 3)%nat.
Proof.
  split.
  - apply (proj1 (proj2 (proj2 (proj2
             (search_returns_matching items (Some (mkFilter [price_gt 1]))
                None None three_items))))); reflexivity.
  - apply (proj2 (proj2 (proj2 (proj2
             (search_returns_matching items None None
                (Some (Pagination_init 1 2 true)) three_items))))
             (Pagination_init 1 2 true)).
    reflexivity.
Defined.

Lemma search_is_repeatable_witness :
  (DataService_search items None None None (two_items false)).2 = two_items false.
Proof.
  apply (proj1 (proj2 (search_is_repeatable items None None None (two_items false)))).
  reflexivity.
Defined.

Lemma Filter_or_laws_witness :
  Filter_matches
    (Filter_or_ (Filter_or_ (mkFilter [price_gt 2]) [price_gt 5]) [price_gt 0])
    item_a
  = Filter_matches (mkFilter [price_gt 2]) item_a
    || holds_all [price_gt 5] item_a || holds_all [price_gt 0] item_a.
Proof.
  apply (proj2 (proj2 (proj2 (proj2 (proj2
           (Filter_or_laws (mkFilter [price_gt 2]) [price_gt 5] [price_gt 0]
              item_a))))));
    discriminate.
Defined.

Lemma Filter_getitem_and__witness :
  Filter_getitem (Filter_and_ (mkFilter [price_gt 1]) [price_gt 2; price_gt 3]) 2
  = py_index [price_gt 2; price_gt 3] (2 - 1).
Proof.
  apply (proj1 (proj2 (Filter_getitem_and_ (mkFilter [price_gt 1])
                         [price_gt 2; price_gt 3] 2))).
  simpl. lia.
Defined.

Lemma Database_Session_is_kept_witness :
  (Database_Session
     (Database_init
        (fold_left use_database [UseInit "sqlite://two" false]
           (Database_Session (Database_init Database_new "sqlite://one" true)).2)
        "sqlite://three" true)).1
  = Returned (sessionmaker (create_async_engine "sqlite://one" true) false).
Proof.
  apply (Database_Session_is_kept
           (Database_Session (Database_init Database_new "sqlite://one" true)).2
           (sessionmaker (create_async_engine "sqlite://one" true) false)
           [UseInit "sqlite://two" false] "sqlite://three" true).
  reflexivity.
Defined.

Lemma create_stages_and_commits_witness :
  DataService_create need_price accept_all items (DDict ∅) (two_items true)
  = (Failed ValidationError, two_items true) /\
  exists s',
    DataService_create need_price accept_all items (new_price 3) (two_items true)
    = (Done (mkInstance 9 (<["price"%string := VInt 3]> ∅)), s') /\
    commits s' = 1%nat /\ new s' = [] /\ deleted s' = [] /\
    (deleted (two_items true) = [] ->
     In (mkInstance 9 (<["price"%string := VInt 3]> ∅))
        (DataService_search items None None None s').1).
Proof.
  split.
  - apply (proj1 (create_stages_and_commits need_price accept_all items
                    (DDict ∅) (two_items true))).
    reflexivity.
  - apply (proj1 (proj2 (create_stages_and_commits need_price accept_all items
                           (new_price 3) (two_items true)))).
    reflexivity.
Defined.

Lemma bulk_create_counts_and_commits_witness :
  exists s',
    DataService_bulk_create need_price accept_all items
      [new_price 1; new_price 2; new_price 3] 2 no_items
    = (Done 3, s') /\
    Z.of_nat (commits s') = Z.of_nat 0 + (3 + Z.abs 2 - 1) / Z.abs 2 /\
    ([new_price 1; new_price 2; new_price 3] <> [] ->
     new s' = [] /\ deleted s' = []) /\
    ([new_price 1; new_price 2; new_price 3] = [] -> s' = no_items).
Proof.
  apply (bulk_create_counts_and_commits need_price accept_all items
           [new_price 1; new_price 2; new_price 3] 2 no_items); [lia|].
  repeat constructor; eexists; reflexivity.
Defined.

Lemma bulk_create_chunk_size_zero_witness :
  DataService_bulk_create need_price accept_all items
    [new_price 1; new_price 2] 0 no_items
  = (Failed ZeroDivisionError,
     session_add (mkInstance 9 (<["price"%string := VInt 1]> ∅)) no_items).
Proof.
  apply (proj1 (proj2 (bulk_create_chunk_size_zero need_price accept_all items
                         no_items))).
  reflexivity.
Defined.

Lemma bulk_create_stops_at_invalid_witness :
  exists s',
    DataService_bulk_create need_price accept_all items
      ([new_price 1; new_price 2; new_price 3] ++ DDict ∅ :: [new_price 4])
      2 no_items
    = (Failed ValidationError, s') /\
    Z.of_nat (commits s') = Z.of_nat 0 + Z.of_nat 3 / Z.abs 2.
Proof.
  apply (bulk_create_stops_at_invalid need_price accept_all items
           [new_price 1; new_price 2; new_price 3] (DDict ∅) [new_price 4]
           2 no_items); [lia| |reflexivity].
  repeat constructor; eexists; reflexivity.
Defined.

Lemma bulk_update_patches_every_match_witness :
  exists fuel s',
    DataService_bulk_update fuel items (mkFilter [price_gt 1])
      (DDict (<["name"%string := VStr "x"]> ∅)) 1 three_items
    = Some (Z.of_nat (length (matching (Some (mkFilter [price_gt 1])) three_items)),
            s') /\
    rows s'
    = map (fun x => if Filter_matches (mkFilter [price_gt 1]) x
                    then DataService__update_model items x
                           (DDict (<["name"%string := VStr "x"]> ∅))
                    else x)
        (rows three_items) /\
    new s' = [] /\ deleted s' = [] /\ (commits three_items < commits s')%nat.
Proof.
  apply (bulk_update_patches_every_match items (mkFilter [price_gt 1])
           (DDict (<["name"%string := VStr "x"]> ∅)) 1 three_items);
    [lia|reflexivity|reflexivity| |].
  - apply (bool_decide_unpack _). vm_compute. exact I.
  - intros r Hr. simpl in Hr.
    destruct Hr as [<-|[<-|[<-|[]]]]; vm_compute; reflexivity.
Defined.

Lemma bulk_delete_takes_every_other_chunk_witness :
  exists fuel s',
    DataService_bulk_delete fuel items (mkFilter [price_gt 0]) 1 four_items
    = Some (Z.of_nat (length (odd_chunks
                                (S (length (matching (Some (mkFilter [price_gt 0]))
                                              four_items)))
                                (Z.to_nat 1)
                                (matching (Some (mkFilter [price_gt 0]))
                                   four_items))), s') /\
    matching (Some (mkFilter [price_gt 0])) s'
    = even_chunks (S (length (matching (Some (mkFilter [price_gt 0])) four_items)))
        (Z.to_nat 1) (matching (Some (mkFilter [price_gt 0])) four_items) /\
    commits s' = commits four_items /\
    ((Z.to_nat 1 < length (matching (Some (mkFilter [price_gt 0])) four_items))%nat ->
     (length (odd_chunks
                (S (length (matching (Some (mkFilter [price_gt 0])) four_items)))
                (Z.to_nat 1) (matching (Some (mkFilter [price_gt 0])) four_items))
      < length (matching (Some (mkFilter [price_gt 0])) four_items))%nat /\
     matching (Some (mkFilter [price_gt 0])) s' <> []).
Proof.
  apply (bulk_delete_takes_every_other_chunk items (mkFilter [price_gt 0]) 1
           four_items); [lia|reflexivity|].
  apply (bool_decide_unpack _). vm_compute. exact I.
Defined.
